(** * Flight booking dashboard: the filter-and-aggregate pipeline of [app.py]

    A shallow embedding of the script [src/app.py]: the loader, the
    normalisation of the loaded table, the year/month filter, the ticketed
    subset, the headline metrics and the group-by / sort / head aggregations.

    Modelling conventions.
    - A data frame is a list of rows together with the list of its column
      names; a row is a record with one field per column the script reads.
    - A cell of an object column is null, a text, a number or a timestamp.
      Finite numbers are exact rationals ([Q]); floating-point rounding and
      the infinities are outside the model.  [NaN]/[None]/[NaT]/[pd.NA] are
      all the null cell, and a nullable numeric value is an [option Q].
    - Text is a [string] of bytes; [str.lower] is modelled on the ASCII
      letters and leaves every other byte unchanged.
    - What pandas parses or prints (text to number, text to timestamp, number
      to text) is a parameter of the development, the class [Pandas].
    - The script's widgets and charts are events appended to a log; an
      uncaught exception ends the run. *)

From Stdlib Require Import List String Ascii Bool Arith ZArith QArith Qround Lia.
From Stdlib Require Import Sorted Permutation DecimalString Lqa.
Import ListNotations.

Local Open Scope string_scope.

(* ------------------------------------------------------------------ *)
(** ** Text *)

Module Text.

Definition is_upper (c : ascii) : bool :=
  let n := nat_of_ascii c in (65 <=? n)%nat && (n <=? 90)%nat.

(** One character of [str.lower]. *)
Definition lower_char (c : ascii) : ascii :=
  if is_upper c then ascii_of_nat (nat_of_ascii c + 32) else c.

(** [str.lower]. *)
Fixpoint lower (s : string) : string :=
  match s with
  | EmptyString => EmptyString
  | String c s' => String (lower_char c) (lower s')
  end.



Definition is_digit (c : ascii) : bool :=
  let n := nat_of_ascii c in (48 <=? n)%nat && (n <=? 57)%nat.

(** The text starts like a printed number or timestamp: with a digit or a
    minus sign. *)
Definition starts_numeric (s : string) : bool :=
  match s with
  | EmptyString => false
  | String c _ => is_digit c || Ascii.eqb c "-"
  end.

End Text.

(* ------------------------------------------------------------------ *)
(** ** Calendar *)

Module Calendar.

Inductive month :=
| January | February | March | April | May | June
| July | August | September | October | November | December.

Definition all_months : list month :=
  [January; February; March; April; May; June;
   July; August; September; October; November; December].

(** [Timestamp.month] *)
Definition month_number (m : month) : nat :=
  match m with
  | January => 1 | February => 2 | March => 3 | April => 4
  | May => 5 | June => 6 | July => 7 | August => 8
  | September => 9 | October => 10 | November => 11 | December => 12
  end.

(** [strftime("%B")], in the C locale. *)
Definition month_name (m : month) : string :=
  match m with
  | January => "January" | February => "February" | March => "March"
  | April => "April" | May => "May" | June => "June"
  | July => "July" | August => "August" | September => "September"
  | October => "October" | November => "November" | December => "December"
  end.

(** [pd.to_datetime(x, format='%B')]: the month a full month name denotes;
    [None] stands for the [ValueError] of a text that is no month name. *)
Definition parse_month_name (x : string) : option month :=
  find (fun m => String.eqb (month_name m) x) all_months.

Record date := mkDate { d_year : Z; d_month : month; d_day : nat }.

End Calendar.
Export Calendar.

(* ------------------------------------------------------------------ *)
(** ** Cells and the pandas conversions *)

Inductive cell :=
| CNull
| CStr (s : string)
| CNum (q : Q)
| CDate (d : date).

(** The conversions of pandas that the script calls and whose algorithms are
    not part of it.  The two laws say that a printed number and a printed
    timestamp start with a digit or a minus sign. *)
Class Pandas := {
  str_to_numeric : string -> option Q;      (* to_numeric on a text, coerced *)
  str_to_datetime : string -> option date;  (* to_datetime on a text, coerced *)
  num_to_datetime : Q -> option date;       (* to_datetime on a number *)
  num_repr : Q -> string;                   (* str(number) *)
  date_repr : date -> string;               (* str(timestamp) *)
  num_repr_numeric : forall q, Text.starts_numeric (num_repr q) = true;
  date_repr_numeric : forall d, Text.starts_numeric (date_repr d) = true
}.

Section Conversions.
Context {P : Pandas}.

(** [pd.to_datetime(cell, errors="coerce")]; [None] is [NaT]. *)
Definition to_datetime (c : cell) : option date :=
  match c with
  | CNull => None
  | CStr s => str_to_datetime s
  | CNum q => num_to_datetime q
  | CDate d => Some d
  end.

(** The null sentinels of line 39. *)
Definition null_sentinels : list string :=
  ["NaN"; "nan"; "NAN"; "Null"; "NULL"; ""; " "].

(** [Series.replace(null_sentinels, pd.NA)] on one cell. *)
Definition replace_sentinels (c : cell) : cell :=
  match c with
  | CStr s => if existsb (String.eqb s) null_sentinels then CNull else c
  | _ => c
  end.

(** [pd.to_numeric(cell, errors="coerce")]; [None] is [NaN]. *)
Definition to_numeric (c : cell) : option Q :=
  match c with
  | CNull => None
  | CStr s => str_to_numeric s
  | CNum q => Some q
  | CDate _ => None
  end.

(** [fillna(0)] *)
Definition fillna0 (x : option Q) : Q :=
  match x with Some q => q | None => 0 end.

(** [astype(int)] on a finite float: truncation toward zero. *)
Definition astype_int (q : Q) : Z := Z.quot (Qnum q) (Zpos (Qden q)).

(** [astype(str)] on one cell; a null cell prints as [nan]. *)
Definition astype_str (c : cell) : string :=
  match c with
  | CNull => "nan"
  | CStr s => s
  | CNum q => num_repr q
  | CDate d => date_repr d
  end.

End Conversions.

(* ------------------------------------------------------------------ *)
(** ** Data frames *)

Record frame (R : Type) := mkFrame { columns : list string; rows : list R }.
Arguments mkFrame {R} _ _.
Arguments columns {R} _.
Arguments rows {R} _.

(** [col in df.columns] *)
Definition has_column {R} (df : frame R) (col : string) : bool :=
  existsb (String.eqb col) (columns df).

(** [len(df)] *)
Definition len {R} (df : frame R) : nat := List.length (rows df).

(** The columns the dashboard reads. *)
Definition required_columns : list string :=
  ["Date"; "Ticket Numbers"; "Payment Method"; "From"; "To"; "Airport";
   "Type"; "Total Price"; "Commission"; "No Passengers"].


(** A row of the table as [read_excel] returns it.  The text columns hold a
    text or null; the other columns hold any cell.  The field of a column
    that the frame does not have is never read. *)
Module Raw.
Record row := mkRow {
  Date : cell;
  Ticket_Numbers : cell;
  Payment_Method : option string;
  From : option string;
  To : option string;
  Airport : option string;
  Type_ : option string;
  Total_Price : cell;
  Commission : cell;
  No_Passengers : cell
}.
End Raw.

(** A row of [df] after lines 27-44. *)
Record row := mkRow {
  Date : date;
  Year : Z;
  Month : nat;
  Month_Name : string;
  Ticket_Numbers : cell;
  Payment_Method : option string;
  From : option string;
  To : option string;
  Airport : option string;
  Type_ : option string;
  Total_Price : option Q;
  Commission : option Q;
  No_Passengers : Z
}.

(* ------------------------------------------------------------------ *)
(** ** Python's [sorted] and pandas' [unique] *)

(** Insertion of [x], which precedes every element of [l] in the input,
    into the sorted [l]: before the first element that is not smaller, so
    that equal elements keep their input order. *)
Fixpoint insert_le {A} (leb : A -> A -> bool) (x : A) (l : list A) : list A :=
  match l with
  | [] => [x]
  | y :: l' => if leb x y then x :: l else y :: insert_le leb x l'
  end.

(** The list sorted ascending for [leb], stable. *)
Definition sort_le {A} (leb : A -> A -> bool) (l : list A) : list A :=
  fold_right (insert_le leb) [] l.

(** The list sorted by ascending integer key, stable. *)
Definition sort_by {A} (key : A -> Z) (l : list A) : list A :=
  sort_le (fun x y => (key x <=? key y)%Z) l.

(** Computes every key first, as [sorted] does; [None] when a key raises. *)
Fixpoint decorate {A} (key : A -> option Z) (l : list A) : option (list (Z * A)) :=
  match l with
  | [] => Some []
  | x :: l' =>
      match key x with
      | None => None
      | Some k =>
          match decorate key l' with
          | None => None
          | Some d => Some ((k, x) :: d)
          end
      end
  end.

(** [sorted(l, key=key, reverse=reverse)]; a descending sort keeps equal
    keys in input order too. *)
Definition sorted {A} (key : A -> option Z) (reverse : bool) (l : list A)
  : option (list A) :=
  match decorate key l with
  | None => None
  | Some d =>
      Some (map snd (sort_by (fun kx => if reverse then (- fst kx)%Z else fst kx) d))
  end.

(** [Series.unique()]: the distinct values in order of first occurrence. *)
Fixpoint unique {A} (eqb : A -> A -> bool) (l : list A) : list A :=
  match l with
  | [] => []
  | x :: l' => x :: filter (fun y => negb (eqb x y)) (unique eqb l')
  end.

(** [x in l] / [Series.isin] on one value. *)
Definition isin {A} (eqb : A -> A -> bool) (x : A) (l : list A) : bool :=
  existsb (eqb x) l.

(* ------------------------------------------------------------------ *)
(** ** Normaliser (lines 27-44) *)

Section Normalizer.
Context {P : Pandas}.

(** Lines 37-40 on one cell of the column [col]: skipped when the frame
    has no such column. *)
Definition numeric_col (present : bool) (c : cell) : option Q :=
  if present then to_numeric (replace_sentinels c) else None.

(** Line 44 on one value. *)
Definition passengers (x : option Q) : Z := astype_int (fillna0 x).

(** Lines 27-44 on one row; a row whose date does not parse is dropped. *)
Definition normalize_row (cols : list string) (r : Raw.row) : option row :=
  let has c := existsb (String.eqb c) cols in
  match to_datetime (Raw.Date r) with
  | None => None
  | Some d =>
      Some {| Date := d;
              Year := d_year d;
              Month := month_number (d_month d);
              Month_Name := month_name (d_month d);
              Ticket_Numbers := Raw.Ticket_Numbers r;
              Payment_Method := Raw.Payment_Method r;
              From := Raw.From r;
              To := Raw.To r;
              Airport := Raw.Airport r;
              Type_ := Raw.Type_ r;
              Total_Price := numeric_col (has "Total Price") (Raw.Total_Price r);
              Commission := numeric_col (has "Commission") (Raw.Commission r);
              No_Passengers :=
                passengers (numeric_col (has "No Passengers") (Raw.No_Passengers r)) |}
  end.

Definition normalize_rows (cols : list string) (rs : list Raw.row) : list row :=
  flat_map (fun r => match normalize_row cols r with
                     | Some r' => [r']
                     | None => []
                     end) rs.

(** The frame [df] after line 44, for a loaded frame that has [Date]. *)
Definition normalize (df : frame Raw.row) : frame row :=
  {| columns := columns df ++ ["Year"; "Month"; "Month_Name"];
     rows := normalize_rows (columns df) (rows df) |}.

End Normalizer.

(* ------------------------------------------------------------------ *)
(** ** Filter engine (lines 50-92) *)

(** Line 50. *)
Definition available_years (rs : list row) : list Z :=
  sort_by (fun y => (- y)%Z) (unique Z.eqb (map Year rs)).

(** The sort key of line 59. *)
Definition month_key (x : string) : option Z :=
  option_map (fun m => Z.of_nat (month_number m)) (parse_month_name x).

(** Line 59; [None] when the key raises on a name. *)
Definition available_months (rs : list row) : option (list string) :=
  sorted month_key false (unique String.eqb (map Month_Name rs)).

(** Lines 68-73.  An empty list is falsy, so the facet is not filtered. *)
Definition filtered_df (rs : list row) (selected_years : list Z)
           (selected_months : list string) : list row :=
  let filtered := rs in
  let filtered :=
    match selected_years with
    | [] => filtered
    | _ => filter (fun r => isin Z.eqb (Year r) selected_years) filtered
    end in
  match selected_months with
  | [] => filtered
  | _ => filter (fun r => isin String.eqb (Month_Name r) selected_months) filtered
  end.

Section Ticketed.
Context {P : Pandas}.

(** The mask of line 89 on one row. *)
Definition has_tickets (r : row) : bool :=
  negb (String.eqb (Text.lower (astype_str (Ticket_Numbers r))) "no tickets").

(** [dropna(subset=["Total Price", "Commission"])] on one row. *)
Definition notna_price_commission (r : row) : bool :=
  match Total_Price r, Commission r with
  | Some _, Some _ => true
  | _, _ => false
  end.

(** Lines 89-92. *)
Definition ticketed_df (filtered : list row) : list row :=
  let ticketed := filter has_tickets filtered in
  filter notna_price_commission ticketed.

End Ticketed.

(* ------------------------------------------------------------------ *)
(** ** Aggregator: reductions *)

(** [Series.sum()]: nulls are skipped, the empty sum is 0. *)
Definition sum (l : list (option Q)) : Q :=
  fold_right (fun x acc => match x with Some q => q + acc | None => acc end) 0 l.

(** [Series.sum()] on an integer column. *)
Definition sum_int (l : list Z) : Z := fold_right Z.add 0%Z l.

(** [Series.count()]: the number of non-null values. *)
Definition count (l : list (option Q)) : nat :=
  List.length (filter (fun x => match x with Some _ => true | None => false end) l).

(** [Series.max()]: [None] (that is [NaN]) when no value is non-null. *)
Definition max (l : list (option Q)) : option Q :=
  fold_right (fun x acc =>
                match x, acc with
                | Some q, Some m => Some (if Qle_bool m q then q else m)
                | Some q, None => Some q
                | None, _ => acc
                end) None l.

(** [Series.mean()]: [None] (that is [NaN]) when no value is non-null. *)
Definition mean (l : list (option Q)) : option Q :=
  match count l with
  | O => None
  | n => Some (sum l / inject_Z (Z.of_nat n))
  end.

(* ------------------------------------------------------------------ *)
(** ** Aggregator: group-by, sort and head *)

(** The non-null values of a key column. *)
Definition notna_keys {R} (key : R -> option string) (rs : list R) : list string :=
  flat_map (fun r => match key r with Some k => [k] | None => [] end) rs.

(** The rows of the group [k]. *)
Definition group {R} (key : R -> option string) (k : string) (rs : list R) : list R :=
  filter (fun r => match key r with Some k' => String.eqb k k' | None => false end) rs.

(** The group keys of [groupby(key)]: the distinct non-null keys, sorted. *)
Definition group_keys {R} (key : R -> option string) (rs : list R) : list string :=
  sort_le String.leb (unique String.eqb (notna_keys key rs)).

(** [groupby(key)[val].sum()], one pair per group, in key order. *)
Definition groupby_sum {R} (key : R -> option string) (val : R -> option Q)
           (rs : list R) : list (string * Q) :=
  map (fun k => (k, sum (map val (group key k rs)))) (group_keys key rs).

(** [Series.value_counts()] before its sort: one pair per distinct non-null
    value, in order of first occurrence. *)
Definition counts {R} (key : R -> option string) (rs : list R) : list (string * nat) :=
  map (fun k => (k, List.length (group key k rs))) (unique String.eqb (notna_keys key rs)).

(** The metric of a row of [value_counts]: its count, as a number. *)
Definition booking_count (kc : string * nat) : Q := inject_Z (Z.of_nat (snd kc)).

(** [take]: the elements of [l] at the positions [idx]. *)
Definition take {A} (idx : list nat) (l : list A) : list A :=
  flat_map (fun i => match nth_error l i with Some x => [x] | None => [] end) idx.

(** [head(n)] *)
Definition head {A} (n : nat) (l : list A) : list A := firstn n l.

Section SortValues.
(** [ndarray.argsort(kind="quicksort")] of numpy, which pandas calls with
    its default [kind]: the positions of the items in ascending order of
    the items. *)
Variable argsort : list Q -> list nat.

(** [nargsort] of pandas on items without nulls: a descending sort
    reverses the items, sorts them ascending and reverses the result. *)
Definition nargsort (items : list Q) (ascending : bool) : list nat :=
  let idx := seq 0 (List.length items) in
  if ascending then take (argsort items) idx
  else rev (take (argsort (rev items)) (rev idx)).

(** [sort_values(by, ascending=ascending)] *)
Definition sort_values {G} (by_ : G -> Q) (ascending : bool) (t : list G) : list G :=
  take (nargsort (map by_ t) ascending) t.

(** [Series.value_counts()] *)
Definition value_counts {R} (key : R -> option string) (rs : list R)
  : list (string * nat) :=
  sort_values booking_count false (counts key rs).

(** Line 114. *)
Definition Route (r : row) : option string :=
  match From r, To r with
  | Some a, Some b => Some (a ++ " → " ++ b)
  | _, _ => None
  end.

(** Lines 129-135. *)
Definition top_dests (ticketed : list row) : list (string * Q) :=
  head 10 (sort_values snd false (groupby_sum To Total_Price ticketed)).

(** One row of the aggregate of lines 152-158. *)
Record route_row := mkRouteRow {
  rr_Route : string;
  rr_Commission : Q;
  rr_Total_Price : Q;
  rr_No_Passengers : Z
}.

(** Lines 152-158: one row per route, in route order. *)
Definition route_totals (ticketed : list row) : list route_row :=
  map (fun k =>
         let g := group Route k ticketed in
         {| rr_Route := k;
            rr_Commission := sum (map Commission g);
            rr_Total_Price := sum (map Total_Price g);
            rr_No_Passengers := sum_int (map No_Passengers g) |})
      (group_keys Route ticketed).

(** Lines 151-161. *)
Definition top_routes_commission (ticketed : list row) : list route_row :=
  head 15 (sort_values rr_Commission false (route_totals ticketed)).

(** Lines 181-187; the rows with a null [Type] are dropped first. *)
Definition type_commission (ticketed : list row) : list (string * Q) :=
  let typed := filter (fun r => match Type_ r with Some _ => true | None => false end)
                      ticketed in
  sort_values snd false (groupby_sum Type_ Commission typed).

(** Lines 239-245. *)
Definition bank_df (ticketed : list row) : list (string * Q) :=
  head 10 (sort_values snd false (groupby_sum Payment_Method Commission ticketed)).

(** Line 258. *)
Definition payment_counts (ticketed : list row) : list (string * nat) :=
  value_counts Payment_Method ticketed.

(** Lines 277-283. *)
Definition airport_commission (ticketed : list row) : list (string * Q) :=
  head 10 (sort_values snd false (groupby_sum Airport Commission ticketed)).

(** Lines 298-304. *)
Definition airport_sales (ticketed : list row) : list (string * Q) :=
  head 10 (sort_values snd false (groupby_sum Airport Total_Price ticketed)).

(** Lines 319-324. *)
Definition airport_bookings (ticketed : list row) : list (string * nat) :=
  head 15 (value_counts Airport ticketed).

End SortValues.

(* ------------------------------------------------------------------ *)
(** ** Aggregator: the price-range histogram (lines 204-217) *)

Inductive edge := Fin (q : Q) | Inf.

Definition bins : list edge :=
  [Fin 0; Fin 5000; Fin 10000; Fin 15000; Fin 20000; Fin 30000; Fin 40000;
   Fin 60000; Fin 100000; Inf].

Definition labels : list string :=
  ["0–5K"; "5K–10K"; "10K–15K"; "15K–20K"; "20K–30K"; "30K–40K"; "40K–60K";
   "60K–100K"; "100K+"].

(** [edge <= x] for a finite [x]. *)
Definition edge_leb (e : edge) (x : Q) : bool :=
  match e with
  | Fin b => Qle_bool b x
  | Inf => false
  end.

(** [a.searchsorted(x, side="right")] on the ascending [a]: the number of
    leading edges that are at most [x]. *)
Fixpoint searchsorted_right (a : list edge) (x : Q) : nat :=
  match a with
  | [] => 0
  | e :: a' => if edge_leb e x then S (searchsorted_right a' x) else 0
  end.

(** [pd.cut(x, bins=bins, labels=labels, right=False)] on one value: the
    position of its bin, or [None] (a null category) for a null value and
    for a value that no bin holds. *)
Definition cut (x : option Q) : option nat :=
  match x with
  | None => None
  | Some q =>
      let ids := searchsorted_right bins q in
      if (ids =? List.length bins)%nat || (ids =? 0)%nat then None
      else Some (ids - 1)%nat
  end.

Record range_row := mkRangeRow {
  Fixed_Price_Range : string;
  Ticket_Count : nat;
  Total_Commission : Q;
  Avg_Ticket_Price : option Q
}.

(** The rows of [price_df] whose category is the bin at position [code]. *)
Definition in_bin (code : nat) (price_df : list row) : list row :=
  filter (fun r => match cut (Total_Price r) with
                   | Some c => (c =? code)%nat
                   | None => false
                   end) price_df.

(** Lines 209-217: one row per category, in category order (the group-by
    of a categorical column lists the unobserved categories too); the rows
    with a null category belong to no group. *)
Definition range_counts (ticketed : list row) : list range_row :=
  let price_df := ticketed in
  map (fun cl =>
         let g := in_bin (fst cl) price_df in
         {| Fixed_Price_Range := snd cl;
            Ticket_Count := List.length g;
            Total_Commission := sum (map Commission g);
            Avg_Ticket_Price := mean (map Total_Price g) |})
      (combine (seq 0 (List.length labels)) labels).

(* ------------------------------------------------------------------ *)
(** ** The sort kinds of numpy *)

Module Numpy.

(** [a < b] on finite floats. *)
Definition less (a b : Q) : bool := negb (Qle_bool b a).

(** [kind="stable"]: the positions sorted by ascending item, positions of
    equal items in ascending order. *)
Definition argsort_stable (v : list Q) : list nat :=
  map fst (sort_le (fun a b => Qle_bool (snd a) (snd b))
                   (combine (seq 0 (List.length v)) v)).

(** The index array [tosort], addressed by integer positions. *)
Definition aget (a : list nat) (p : Z) : nat := nth (Z.to_nat p) a 0%nat.

Fixpoint set_nth (n : nat) (x : nat) (a : list nat) : list nat :=
  match a, n with
  | [], _ => []
  | _ :: a', O => x :: a'
  | y :: a', S n' => y :: set_nth n' x a'
  end.

Definition aset (a : list nat) (p : Z) (x : nat) : list nat :=
  set_nth (Z.to_nat p) x a.

(** [INTP_SWAP( *p, *q )] *)
Definition swap (a : list nat) (p q : Z) : list nat :=
  let x := aget a p in
  let y := aget a q in
  aset (aset a p y) q x.

(** [v[*p]] *)
Definition at_ (v : list Q) (a : list nat) (p : Z) : Q := nth (aget a p) v 0.

Definition SMALL_QUICKSORT : Z := 16.

(** [do ++pi while (v[*pi] < vp)] *)
Fixpoint scan_up (fuel : nat) (v : list Q) (vp : Q) (a : list nat) (pi : Z) : Z :=
  let pi := (pi + 1)%Z in
  match fuel with
  | O => pi
  | S f => if less (at_ v a pi) vp then scan_up f v vp a pi else pi
  end.

(** [do --pj while (vp < v[*pj])] *)
Fixpoint scan_down (fuel : nat) (v : list Q) (vp : Q) (a : list nat) (pj : Z) : Z :=
  let pj := (pj - 1)%Z in
  match fuel with
  | O => pj
  | S f => if less vp (at_ v a pj) then scan_down f v vp a pj else pj
  end.

(** The [for (;;)] loop of the partition; returns the array and [pi]. *)
Fixpoint crossing (fuel : nat) (v : list Q) (vp : Q) (a : list nat) (pi pj : Z)
  : list nat * Z :=
  let pi := scan_up (List.length a) v vp a pi in
  let pj := scan_down (List.length a) v vp a pj in
  match fuel with
  | O => (a, pi)
  | S f => if (pi >=? pj)%Z then (a, pi)
           else crossing f v vp (swap a pi pj) pi pj
  end.

(** One partition of [pl .. pr] around the median of three; returns the
    array and the final position of the pivot. *)
Definition partition (v : list Q) (a : list nat) (pl pr : Z) : list nat * Z :=
  let pm := (pl + Z.shiftr (pr - pl) 1)%Z in
  let a := if less (at_ v a pm) (at_ v a pl) then swap a pm pl else a in
  let a := if less (at_ v a pr) (at_ v a pm) then swap a pr pm else a in
  let a := if less (at_ v a pm) (at_ v a pl) then swap a pm pl else a in
  let vp := at_ v a pm in
  let pi := pl in
  let pj := (pr - 1)%Z in
  let a := swap a pm pj in
  let '(a, pi) := crossing (List.length a) v vp a pi pj in
  let pk := (pr - 1)%Z in
  (swap a pi pk, pi).

(** [while (pj > pl && vp < v[*pk]) *pj-- = *pk--] *)
Fixpoint shift (fuel : nat) (v : list Q) (vp : Q) (a : list nat) (pl pj : Z)
  : list nat * Z :=
  match fuel with
  | O => (a, pj)
  | S f =>
      let pk := (pj - 1)%Z in
      if (pj >? pl)%Z && less vp (at_ v a pk)
      then shift f v vp (aset a pj (aget a pk)) pl pk
      else (a, pj)
  end.

(** The insertion sort of [pl .. pr], from position [pi] on. *)
Fixpoint insertion (fuel : nat) (v : list Q) (a : list nat) (pl pr pi : Z) : list nat :=
  match fuel with
  | O => a
  | S f =>
      if (pi <=? pr)%Z then
        let vi := aget a pi in
        let vp := nth vi v 0 in
        let '(a, pj) := shift (List.length a) v vp a pl pi in
        insertion f v (aset a pj vi) pl pr (pi + 1)%Z
      else a
  end.

(** The sift loop of the heap sort on the 1-based array that starts at
    position [base + 1]; returns the array and the hole [i]. *)
Fixpoint sift (fuel : nat) (v : list Q) (a : list nat) (base n : Z) (tmp : nat) (i j : Z)
  : list nat * Z :=
  match fuel with
  | O => (a, i)
  | S f =>
      if (j <=? n)%Z then
        let j := if (j <? n)%Z && less (at_ v a (base + j)) (at_ v a (base + j + 1))
                 then (j + 1)%Z else j in
        if less (nth tmp v 0) (at_ v a (base + j))
        then sift f v (aset a (base + i) (aget a (base + j))) base n tmp j (j + j)%Z
        else (a, i)
      else (a, i)
  end.

(** [for (l = n >> 1; l > 0; --l)] *)
Fixpoint heapify (fuel : nat) (v : list Q) (a : list nat) (base n l : Z) : list nat :=
  match fuel with
  | O => a
  | S f =>
      if (l >? 0)%Z then
        let tmp := aget a (base + l) in
        let '(a, i) := sift (List.length a) v a base n tmp l (Z.shiftl l 1) in
        heapify f v (aset a (base + i) tmp) base n (l - 1)%Z
      else a
  end.

(** [for (; n > 1;)] *)
Fixpoint sortdown (fuel : nat) (v : list Q) (a : list nat) (base n : Z) : list nat :=
  match fuel with
  | O => a
  | S f =>
      if (n >? 1)%Z then
        let tmp := aget a (base + n) in
        let a := aset a (base + n) (aget a (base + 1)) in
        let n := (n - 1)%Z in
        let '(a, i) := sift (List.length a) v a base n tmp 1 2 in
        sortdown f v (aset a (base + i) tmp) base n
      else a
  end.

(** [aheapsort_(vv, pl, n)] *)
Definition aheapsort (v : list Q) (a : list nat) (pl n : Z) : list nat :=
  let base := (pl - 1)%Z in
  let a := heapify (List.length a) v a base n (Z.shiftr n 1) in
  sortdown (List.length a) v a base n.

(** The [while ((pr - pl) > SMALL_QUICKSORT)] loop: partitions, pushes the
    larger part with the decremented depth and goes on with the smaller. *)
Fixpoint descend (fuel : nat) (v : list Q) (a : list nat) (pl pr : Z)
         (stack : list (Z * Z * Z)) (cdepth : Z)
  : list nat * Z * Z * list (Z * Z * Z) * Z :=
  match fuel with
  | O => (a, pl, pr, stack, cdepth)
  | S f =>
      if (pr - pl >? SMALL_QUICKSORT)%Z then
        let '(a, pi) := partition v a pl pr in
        let cdepth := (cdepth - 1)%Z in
        if (pi - pl <? pr - pi)%Z
        then descend f v a pl (pi - 1)%Z (((pi + 1)%Z, pr, cdepth) :: stack) cdepth
        else descend f v a (pi + 1)%Z pr ((pl, (pi - 1)%Z, cdepth) :: stack) cdepth
      else (a, pl, pr, stack, cdepth)
  end.

(** The outer [while (1)] loop with its [stack_pop] exit. *)
Fixpoint loop (fuel : nat) (v : list Q) (a : list nat) (pl pr : Z)
         (stack : list (Z * Z * Z)) (cdepth : Z) : list nat :=
  match fuel with
  | O => a
  | S f =>
      let '(a, stack) :=
        if (cdepth <? 0)%Z then (aheapsort v a pl (pr - pl + 1)%Z, stack)
        else
          let '(a, pl, pr, stack, _) := descend (List.length a) v a pl pr stack cdepth in
          (insertion (List.length a) v a pl pr (pl + 1)%Z, stack) in
      match stack with
      | [] => a
      | (pl, pr, cdepth) :: stack => loop f v a pl pr stack cdepth
      end
  end.

(** [kind="quicksort"]: the portable [aquicksort_] of numpy's npysort,
    an introsort on the index array [0 .. num-1]. *)
Definition argsort_quicksort (v : list Q) : list nat :=
  let num := Z.of_nat (List.length v) in
  let tosort := seq 0 (List.length v) in
  loop (S (List.length v)) v tosort 0%Z (num - 1)%Z [] (Z.log2 num * 2)%Z.

End Numpy.

(* ------------------------------------------------------------------ *)
(** ** The script as a computation: a log of what it shows, and exceptions *)

Inductive exn :=
| KeyError (keys : list string)
| ValueError (msg : string)
| Exception (msg : string).

(** [str(e)] *)
Definition str_exn (e : exn) : string :=
  match e with
  | KeyError keys => String.concat ", " keys
  | ValueError msg => msg
  | Exception msg => msg
  end.

Inductive metric_value :=
| MInt (z : Z)
| MFloat (x : option Q).

Inductive figure :=
| px_pie (title : string) (slices : list (string * nat))
| px_bar (title : string) (bars : list (string * Q)).

(** What the page shows.  Widgets that only lay the page out or show a
    fixed text (titles, headers, tabs, columns, the multiselects, the
    active-filter summary) are not logged. *)
Inductive event :=
| st_error (msg : string)
| st_warning (msg : string)
| st_info (msg : string)
| st_info_date_range (min_date max_date : date)
| st_metric (label : string) (value : metric_value)
| st_plotly_chart (fig : figure).

Inductive outcome (A : Type) :=
| Returned (a : A)
| Raised (e : exn).
Arguments Returned {A} _.
Arguments Raised {A} _.

(** A computation of the script: from the log so far to the log after it and
    either a value or the exception it raised. *)
Definition App (A : Type) : Type := list event -> list event * outcome A.

Definition ret {A} (a : A) : App A := fun log => (log, Returned a).

Definition bind {A B} (c : App A) (k : A -> App B) : App B :=
  fun log =>
    match c log with
    | (log', Returned a) => k a log'
    | (log', Raised e) => (log', Raised e)
    end.

Definition raise {A} (e : exn) : App A := fun log => (log, Raised e).

Definition emit (ev : event) : App unit := fun log => ((log ++ [ev])%list, Returned tt).

(** [try: body  except Exception as e: handler(e)] *)
Definition try_except {A} (body : App A) (handler : exn -> App A) : App A :=
  fun log =>
    match body log with
    | (log', Returned a) => (log', Returned a)
    | (log', Raised e) => handler e log'
    end.

Declare Scope app_scope.
Delimit Scope app_scope with app.
Notation "x <- c ;; k" := (bind c (fun x => k))
  (at level 61, c at next level, right associativity) : app_scope.
Notation "c ;; k" := (bind c (fun _ => k))
  (at level 61, right associativity) : app_scope.

(** The columns of [subset] that the frame lacks. *)
Definition missing_columns (cols subset : list string) : list string :=
  filter (fun c => negb (existsb (String.eqb c) cols)) subset.

(** [df[col]], as far as it can raise. *)
Definition getitem (cols : list string) (col : string) : App unit :=
  if existsb (String.eqb col) cols then ret tt else raise (KeyError [col]).

(** [df.dropna(subset=subset)] and [df.groupby(col)], as far as they can
    raise: a [KeyError] that names the missing columns. *)
Definition check_subset (cols subset : list string) : App unit :=
  match missing_columns cols subset with
  | [] => ret tt
  | missing => raise (KeyError missing)
  end.

(** [date1 <= date2] *)
Definition date_leb (a b : date) : bool :=
  if (d_year a <? d_year b)%Z then true
  else if (d_year b <? d_year a)%Z then false
  else if (month_number (d_month a) <? month_number (d_month b))%nat then true
  else if (month_number (d_month b) <? month_number (d_month a))%nat then false
  else (d_day a <=? d_day b)%nat.

Definition min_date (d : date) (ds : list date) : date :=
  fold_left (fun m x => if date_leb x m then x else m) ds d.

Definition max_date (d : date) (ds : list date) : date :=
  fold_left (fun m x => if date_leb m x then x else m) ds d.

(** Lines 83-86: the date range of the filtered rows, unless there is none. *)
Definition show_date_range (filtered : list row) : App unit :=
  match map Date filtered with
  | [] => ret tt
  | d :: ds => emit (st_info_date_range (min_date d ds) (max_date d ds))
  end.

Definition file_url : string :=
  "https://drive.google.com/uc?id=1yZOgxaEroxK6_qmzwiTDwT4aDPlA5RB6".

Definition guidance : string :=
  "To use this dashboard: update the file_path variable, make sure the Excel file has the required columns, restart the application".

Section Script.
Context {P : Pandas}.

(** numpy's [argsort] for the default sort kind. *)
Variable argsort : list Q -> list nat.

(** [pd.read_excel(url, engine="openpyxl")]: the table, or the exception
    the retrieval or the parsing raised. *)
Variable read_excel : string -> outcome (frame Raw.row).

Local Open Scope app_scope.

(** Lines 13-20.  The memoisation of [st.cache_data] is not modelled: a
    run calls the loader once. *)
Definition load_data (url : string) : App (option (frame Raw.row)) :=
  try_except
    (df <- (fun log => (log, read_excel url)) ;;
     ret (Some df))
    (fun e =>
       emit (st_error ("Failed to load Excel file: " ++ str_exn e)) ;;
       ret None).

Definition bars_of_counts (t : list (string * nat)) : list (string * Q) :=
  map (fun kc => (fst kc, booking_count kc)) t.

(** Lines 26-336, for the loaded frame [df] and the selections made in the
    two multiselects. *)
Definition dashboard (df : frame Raw.row) (selected_years : list Z)
           (selected_months : list string) : App unit :=
  (* 27-44 *)
  getitem (columns df) "Date" ;;
  let df := normalize df in
  let cols := columns df in
  (* 50-65 *)
  let years := available_years (rows df) in
  months <- match available_months (rows df) with
            | Some ms => ret ms
            | None => raise (ValueError "time data doesn't match format")
            end ;;
  (* 68-73 *)
  let filtered := filtered_df (rows df) selected_years selected_months in
  (* 83-86 *)
  show_date_range filtered ;;
  (* 89-92 *)
  getitem cols "Ticket Numbers" ;;
  check_subset cols ["Total Price"; "Commission"] ;;
  let ticketed := ticketed_df filtered in
  (* 98-107 *)
  emit (st_metric "Total Bookings" (MInt (Z.of_nat (List.length filtered)))) ;;
  getitem cols "No Passengers" ;;
  emit (st_metric "Total Ticketed Passengers"
                  (MInt (sum_int (map No_Passengers ticketed)))) ;;
  emit (st_metric "Max Ticket Price (ETB)" (MFloat (max (map Total_Price ticketed)))) ;;
  emit (st_metric "Total Commission (ETB)"
                  (MFloat (Some (sum (map Commission ticketed))))) ;;
  emit (st_metric "Total Sales (ETB)"
                  (MFloat (Some (sum (map Total_Price ticketed))))) ;;
  emit (st_metric "Avg. Ticket Price (ETB)" (MFloat (mean (map Total_Price ticketed)))) ;;
  (* 112-174 *)
  getitem cols "From" ;;
  getitem cols "To" ;;
  (if existsb (String.eqb "Type") cols then ret tt
   else raise (ValueError "Value of 'names' is not the name of a column")) ;;
  emit (st_plotly_chart (px_pie "Flight Type Distribution" (counts Type_ ticketed))) ;;
  emit (st_plotly_chart
          (px_bar "Top Destinations by Total Price" (top_dests argsort ticketed))) ;;
  emit (st_plotly_chart
          (px_bar "Profitable Routes by Commission Earned"
                  (map (fun r => (rr_Route r, rr_Commission r))
                       (top_routes_commission argsort ticketed)))) ;;
  (* 176-231 *)
  emit (st_plotly_chart
          (px_bar "Total Commission by Flight Type" (type_commission argsort ticketed))) ;;
  emit (st_plotly_chart
          (px_bar "Ticket Count by Price Range"
                  (map (fun r => (Fixed_Price_Range r,
                                  inject_Z (Z.of_nat (Ticket_Count r))))
                       (range_counts ticketed)))) ;;
  (* 233-269 *)
  check_subset cols ["Payment Method"] ;;
  emit (st_plotly_chart (px_bar "Top Banks by Commission" (bank_df argsort ticketed))) ;;
  emit (st_plotly_chart
          (px_pie "Most Used Payment Methods" (payment_counts argsort ticketed))) ;;
  (* 271-336 *)
  check_subset cols ["Airport"] ;;
  emit (st_plotly_chart
          (px_bar "Top Airports by Commission" (airport_commission argsort ticketed))) ;;
  emit (st_plotly_chart
          (px_bar "Top Airports by Sales" (airport_sales argsort ticketed))) ;;
  emit (st_plotly_chart
          (px_bar "Most Active Airports by Number of Bookings"
                  (bars_of_counts (airport_bookings argsort ticketed)))).

(** The whole script: lines 23-347. *)
Definition app (selected_years : list Z) (selected_months : list string) : App unit :=
  df <- load_data file_url ;;
  match df with
  | Some df => dashboard df selected_years selected_months
  | None =>
      emit (st_warning "Please check if the Excel file exists at the specified path.") ;;
      emit (st_info guidance)
  end.

End Script.

(* ------------------------------------------------------------------ *)
(** ** The properties the specification names *)



(** The row passes the year/month selection: an empty selection admits every
    row for its facet. *)
Definition selected (selected_years : list Z) (selected_months : list string)
           (r : row) : Prop :=
  (selected_years = [] \/ In (Year r) selected_years)
  /\ (selected_months = [] \/ In (Month_Name r) selected_months).

(** The month names are in calendar order, each at most once. *)
Definition calendar_order (names : list string) : Prop :=
  exists ms, names = map month_name ms
             /\ StronglySorted (fun a b => (month_number a < month_number b)%nat) ms.

(** [x] occurs before [y] in [l]. *)
Definition before {A} (x y : A) (l : list A) : Prop :=
  exists l1 l2 l3, l = (l1 ++ x :: l2 ++ y :: l3)%list.

(** Sorted descending by the metric. *)
Definition descending {G} (by_ : G -> Q) (t : list G) : Prop :=
  StronglySorted (fun a b => by_ b <= by_ a) t.

(** [out] is the top [n] of [t] by the metric: at most [n] rows, sorted
    descending, and together with some rest, none of which has a larger
    metric than a row of [out], a rearrangement of [t]. *)
Definition top_n {G} (n : nat) (by_ : G -> Q) (t out : list G) : Prop :=
  (List.length out <= n)%nat
  /\ descending by_ out
  /\ exists rest, Permutation (out ++ rest) t
                  /\ (List.length out = Nat.min n (List.length t))
                  /\ forall x y, In x out -> In y rest -> by_ y <= by_ x.

(** Rows of [out] with equal metric are in the order they have in [t]. *)
Definition ties_in_input_order {G} (by_ : G -> Q) (t out : list G) : Prop :=
  forall x y, before x y out -> by_ x == by_ y -> before x y t.

(** What numpy promises of every sort kind: the result lists each position
    once, in ascending order of the items. *)
Definition argsort_spec (argsort : list Q -> list nat) : Prop :=
  forall v, Permutation (argsort v) (seq 0 (List.length v))
            /\ StronglySorted Qle (take (argsort v) v).

(** What numpy promises of a stable kind in addition: the positions of equal
    items are ascending. *)
Definition argsort_stable_spec (argsort : list Q -> list nat) : Prop :=
  forall v, StronglySorted (fun i j => nth i v 0 == nth j v 0 -> (i < j)%nat) (argsort v).

(** A sort that meets numpy's promise and lists equal items in descending
    order of position: what a kind that is not stable may return. *)
Definition argsort_ties_reversed (v : list Q) : list nat :=
  rev (map fst (sort_le (fun a b => Qle_bool (snd b) (snd a))
                        (combine (seq 0 (List.length v)) v))).

(** [out] is the top [n] of [t] by the metric and, when the sort kind is
    stable, lists equal metrics in the order of [t]. *)
Definition top_n_by (argsort : list Q -> list nat) {G} (n : nat) (by_ : G -> Q)
           (t out : list G) : Prop :=
  top_n n by_ t out
  /\ (argsort_stable_spec argsort -> ties_in_input_order by_ t out).

(** The event shows a computed result: a metric or a chart. *)
Definition shows_result (ev : event) : bool :=
  match ev with
  | st_metric _ _ | st_plotly_chart _ => true
  | _ => false
  end.




(** What lines 83-86 show: the date range, unless no row is left. *)
Definition date_range_events (filtered : list row) : list event :=
  match map Date filtered with
  | [] => []
  | d :: ds => [st_info_date_range (min_date d ds) (max_date d ds)]
  end.


(* ------------------------------------------------------------------ *)
(** ** Further definitions: the rest of the script *)




(** A key column holds a value in this row. *)
Definition notna {R} (key : R -> option string) (r : R) : bool :=
  match key r with
  | Some _ => true
  | None => false
  end.

(** The sum of the metric column of a grouped table. *)
Definition total (t : list (string * Q)) : Q :=
  sum (map (fun g => Some (snd g)) t).

(** The sum of the count column of [value_counts]. *)
Definition total_bookings (t : list (string * nat)) : nat :=
  fold_right (fun kc acc => (snd kc + acc)%nat) 0%nat t.



(** [str(n)] on an integer. *)
Definition str_int (z : Z) : string := NilZero.string_of_int (Z.to_int z).

(** The decimal digits of a natural number. *)
Definition digits (n : N) : list ascii :=
  list_ascii_of_string (NilZero.string_of_uint (N.to_uint n)).

(** Puts a comma after every third character while characters remain. *)
Fixpoint group3 (l : list ascii) : list ascii :=
  match l with
  | a :: b :: c :: ((_ :: _) as rest) => a :: b :: c :: ","%char :: group3 rest
  | _ => l
  end.

(** The thousands separator of the format specification [,]: the digits
    are grouped by three from the right. *)
Definition thousands (ds : list ascii) : list ascii := rev (group3 (rev ds)).

(** [format(z, ",")] on an integer (lines 99-100). *)
Definition format_comma (z : Z) : string :=
  string_of_list_ascii
    ((if (z <? 0)%Z then ["-"%char] else []) ++ thousands (digits (Z.abs_N z))).

(** Rounding to the nearest integer, a tie to the even one: the rounding
    of the format specification [.0f]. *)
Definition round_half_even (q : Q) : Z :=
  let f := Qfloor q in
  let d := q - inject_Z f in
  if Qle_bool d (1 # 2)
  then if Qle_bool (1 # 2) d then (if Z.even f then f else f + 1)%Z else f
  else (f + 1)%Z.

(** [format(x, ",.0f")] on a float (lines 101-107); NaN prints as [nan], and
    a negative number keeps its sign even when it rounds to zero. *)
Definition format_comma_0f (x : option Q) : string :=
  match x with
  | None => "nan"
  | Some q =>
      string_of_list_ascii
        ((if Qle_bool 0 q then [] else ["-"%char])
           ++ thousands (digits (Z.abs_N (round_half_even q))))
  end.

(** The text that [st.metric] is given for a value. *)
Definition metric_text (v : metric_value) : string :=
  match v with
  | MInt z => format_comma z
  | MFloat x => format_comma_0f x
  end.

(** The character is not a comma. *)
Definition not_comma (c : ascii) : bool := negb (Ascii.eqb c ",").

(** The text without its commas. *)
Definition remove_commas (s : string) : string :=
  string_of_list_ascii (filter not_comma (list_ascii_of_string s)).

(* ------------------------------------------------------------------ *)
(** ** A sample environment and sample tables *)

Module Sample.

Definition print_int (z : Z) : string := NilZero.string_of_int (Z.to_int z).

(** Reads a decimal integer, nothing else. *)
Definition parse_int (s : string) : option Q :=
  option_map (fun d => inject_Z (Z.of_int d)) (NilZero.int_of_string s).

Definition print_num (q : Q) : string :=
  match Qden q with
  | xH => print_int (Qnum q) ++ ".0"
  | d => print_int (Qnum q) ++ "/" ++ print_int (Zpos d)
  end.

Definition print_date (d : date) : string :=
  print_int (d_year d) ++ "-" ++ print_int (Z.of_nat (month_number (d_month d)))
  ++ "-" ++ print_int (Z.of_nat (d_day d)).

Lemma print_int_numeric z rest : Text.starts_numeric (print_int z ++ rest) = true.
Proof.
  unfold print_int, NilZero.string_of_int.
  destruct (Z.to_int z) as [d | d]; [ | reflexivity ].
  destruct d; reflexivity.
Qed.

Lemma print_num_numeric q : Text.starts_numeric (print_num q) = true.
Proof. unfold print_num. destruct (Qden q); apply print_int_numeric. Qed.

Lemma print_date_numeric d : Text.starts_numeric (print_date d) = true.
Proof. apply print_int_numeric. Qed.

(** An environment in which only typed date cells are dates and only
    decimal integers are numeric texts. *)
Definition pandas : Pandas :=
  {| str_to_numeric := parse_int;
     str_to_datetime := fun _ => None;
     num_to_datetime := fun _ => None;
     num_repr := print_num;
     date_repr := print_date;
     num_repr_numeric := print_num_numeric;
     date_repr_numeric := print_date_numeric |}.

Definition all_columns : list string := required_columns.

(** Row A of the specification's scenario. *)
Definition row_A : Raw.row :=
  {| Raw.Date := CDate (mkDate 2024 January 5);
     Raw.Ticket_Numbers := CStr "ABC123";
     Raw.Payment_Method := Some "CBE";
     Raw.From := Some "A";
     Raw.To := Some "B";
     Raw.Airport := Some "X";
     Raw.Type_ := Some "Domestic";
     Raw.Total_Price := CNum 4000;
     Raw.Commission := CNum 200;
     Raw.No_Passengers := CStr "2" |}.

(** Row B of the specification's scenario. *)
Definition row_B : Raw.row :=
  {| Raw.Date := CDate (mkDate 2024 January 6);
     Raw.Ticket_Numbers := CStr "No Tickets";
     Raw.Payment_Method := None;
     Raw.From := None;
     Raw.To := None;
     Raw.Airport := None;
     Raw.Type_ := None;
     Raw.Total_Price := CNull;
     Raw.Commission := CNull;
     Raw.No_Passengers := CStr " " |}.

(** A booking without ticket numbers, in March. *)
Definition row_C : Raw.row :=
  {| Raw.Date := CDate (mkDate 2024 March 9);
     Raw.Ticket_Numbers := CNull;
     Raw.Payment_Method := Some "Telebirr";
     Raw.From := Some "A";
     Raw.To := Some "C";
     Raw.Airport := Some "Y";
     Raw.Type_ := Some "International";
     Raw.Total_Price := CNum 5000;
     Raw.Commission := CNum 300;
     Raw.No_Passengers := CNum 1 |}.

(** A refund: a negative price and a negative passenger count, in April
    of the year before. *)
Definition row_D : Raw.row :=
  {| Raw.Date := CDate (mkDate 2023 April 2);
     Raw.Ticket_Numbers := CNum 7123;
     Raw.Payment_Method := Some "CBE";
     Raw.From := Some "B";
     Raw.To := Some "A";
     Raw.Airport := Some "X";
     Raw.Type_ := Some "Domestic";
     Raw.Total_Price := CNum (-100);
     Raw.Commission := CNum 5;
     Raw.No_Passengers := CNum (-2) |}.

Definition table : frame Raw.row :=
  {| columns := all_columns; rows := [row_A; row_B; row_C; row_D] |}.


(** One ticketed booking to the destination [D<i>], all of the same price
    and commission. *)
Definition booking (i : nat) : row :=
  {| Date := mkDate 2024 January 5;
     Year := 2024;
     Month := 1;
     Month_Name := "January";
     Ticket_Numbers := CStr "ABC123";
     Payment_Method := Some "CBE";
     From := Some "A";
     To := Some ("D" ++ print_int (Z.of_nat (10 + i)));
     Airport := Some "X";
     Type_ := Some "Domestic";
     Total_Price := Some 4000;
     Commission := Some 200;
     No_Passengers := 1 |}.

(** Eighteen bookings to eighteen destinations. *)
Definition eighteen : list row := map booking (seq 0 18).

(** Two bookings to two destinations. *)
Definition two_destinations : list row := map booking (seq 0 2).


(** The rows of [table] after the normaliser. *)
Definition normalized : list row := rows (@normalize pandas table).

(** The booking without ticket numbers, normalised. *)
Definition normalized_C : row := nth 2 normalized (booking 0).




(** A loader whose retrieval fails. *)
Definition unreachable (url : string) : outcome (frame Raw.row) :=
  Raised (Exception "HTTP Error 404: Not Found").

(** A loader that returns [table]. *)
Definition reachable (url : string) : outcome (frame Raw.row) :=
  Returned table.

End Sample.

(* ================================================================== *)
(** * Properties *)

(* ------------------------------------------------------------------ *)
(** ** Text *)

Module TextFacts.
Import Text.






End TextFacts.

(* ------------------------------------------------------------------ *)
(** ** The ticketed subset *)

Section TicketedFacts.
Context {P : Pandas}.


Lemma filter_filter {A} (f g : A -> bool) (l : list A) :
  filter g (filter f l) = filter (fun x => f x && g x) l.
Proof.
  induction l as [ | x l IH]; simpl; [ reflexivity | ].
  destruct (f x); simpl; [ destruct (g x) | ]; now rewrite IH.
Qed.


End TicketedFacts.


(** C10: a row whose [Ticket Numbers] cell is null stays in the ticketed
    subset whenever its [Total Price] and [Commission] are non-null: the
    null cell prints as [nan], which is not [no tickets]. *)
Theorem null_ticket_numbers_retained {P : Pandas} (filtered : list row) (r : row) :
  In r filtered ->
  Ticket_Numbers r = CNull ->
  Total_Price r <> None ->
  Commission r <> None ->
  Text.lower (astype_str (Ticket_Numbers r)) = "nan" /\ In r (ticketed_df filtered).
Proof.
  intros Hin Hnull Hp Hc. split.
  - now rewrite Hnull.
  - unfold ticketed_df. rewrite !filter_In. repeat split.
    + exact Hin.
    + unfold has_tickets. now rewrite Hnull.
    + unfold notna_price_commission.
      destruct (Total_Price r), (Commission r); congruence.
Qed.

(* ------------------------------------------------------------------ *)
(** ** The year/month filter *)

Lemma isin_Z (y : Z) (ys : list Z) : isin Z.eqb y ys = true <-> In y ys.
Proof.
  unfold isin. rewrite existsb_exists. split.
  - intros (x & Hin & E). apply Z.eqb_eq in E. now subst.
  - intro Hin. exists y. split; [ exact Hin | apply Z.eqb_refl ].
Qed.

Lemma isin_string (x : string) (xs : list string) :
  isin String.eqb x xs = true <-> In x xs.
Proof.
  unfold isin. rewrite existsb_exists. split.
  - intros (y & Hin & E). apply String.eqb_eq in E. now subst.
  - intro Hin. exists x. split; [ exact Hin | apply String.eqb_refl ].
Qed.

(** C2: with both selections empty the filter returns the base table
    unchanged; in general the filtered table is the base table restricted,
    in order, to the rows that pass the selection, where an empty selection
    restricts nothing on its facet and a non-empty one keeps the rows whose
    [Year] (or [Month_Name]) is among the selected values. *)
Theorem filter_pass_through (rs : list row) (selected_years : list Z)
        (selected_months : list string) :
  filtered_df rs [] [] = rs
  /\ (exists keep,
         filtered_df rs selected_years selected_months = filter keep rs
         /\ forall r, keep r = true <-> selected selected_years selected_months r)
  /\ (forall r, In r (filtered_df rs selected_years selected_months) <->
                In r rs /\ selected selected_years selected_months r).
Proof.
  assert (K : exists keep,
             filtered_df rs selected_years selected_months = filter keep rs
             /\ forall r, keep r = true <-> selected selected_years selected_months r).
  { exists (fun r =>
              (match selected_years with [] => true | _ => isin Z.eqb (Year r) selected_years end)
              && (match selected_months with
                  | [] => true
                  | _ => isin String.eqb (Month_Name r) selected_months
                  end)).
    split.
    - unfold filtered_df.
      destruct selected_years as [ | y ys], selected_months as [ | m ms].
      + induction rs as [ | r rs IH]; [ reflexivity | ].
        simpl. f_equal. exact IH.
      + apply filter_ext. intro r. reflexivity.
      + apply filter_ext. intro r. now rewrite andb_true_r.
      + now rewrite filter_filter.
    - intro r. unfold selected. rewrite andb_true_iff.
      destruct selected_years as [ | y ys], selected_months as [ | m ms];
        rewrite ?isin_Z, ?isin_string; intuition congruence. }
  split; [ reflexivity | split; [ exact K | ] ].
  destruct K as (keep & E & Hk). intro r.
  rewrite E, filter_In, Hk. reflexivity.
Qed.

(* ------------------------------------------------------------------ *)
(** ** Python's [sorted] and pandas' [unique] *)

Section SortFacts.
Context {A : Type} (leb : A -> A -> bool).

Let le (a b : A) : Prop := leb a b = true.

Lemma insert_le_perm x l : Permutation (insert_le leb x l) (x :: l).
Proof.
  induction l as [ | y l IH]; simpl; [ reflexivity | ].
  destruct (leb x y); [ reflexivity | ].
  rewrite IH. apply perm_swap.
Qed.

Lemma sort_le_perm l : Permutation (sort_le leb l) l.
Proof.
  induction l as [ | x l IH]; simpl; [ reflexivity | ].
  rewrite insert_le_perm. now constructor.
Qed.

Hypothesis leb_total : forall a b, leb a b = true \/ leb b a = true.

Lemma insert_le_hd x y l :
  le y x -> HdRel le y l -> HdRel le y (insert_le leb x l).
Proof.
  intros Hyx Hhd. destruct l as [ | z l]; simpl.
  - now constructor.
  - destruct (leb x z); constructor; [ exact Hyx | now inversion Hhd ].
Qed.

Lemma insert_le_sorted x l : Sorted le l -> Sorted le (insert_le leb x l).
Proof.
  induction 1 as [ | y l Hs IH Hhd]; simpl.
  - repeat constructor.
  - destruct (leb x y) eqn:E.
    + constructor; [ now constructor | now constructor ].
    + constructor; [ exact IH | ].
      apply insert_le_hd; [ | exact Hhd ].
      destruct (leb_total x y) as [H | H]; [ congruence | exact H ].
Qed.

Lemma sort_le_sorted l : Sorted le (sort_le leb l).
Proof.
  induction l as [ | x l IH]; simpl; [ constructor | ].
  now apply insert_le_sorted.
Qed.

Hypothesis leb_trans : forall a b c, leb a b = true -> leb b c = true -> leb a c = true.

Lemma sort_le_strongly_sorted l : StronglySorted le (sort_le leb l).
Proof.
  apply Sorted_StronglySorted; [ | apply sort_le_sorted ].
  intros a b c. apply leb_trans.
Qed.

End SortFacts.

Section UniqueFacts.
Context {A : Type} (eqb : A -> A -> bool).
Hypothesis eqb_eq : forall a b, eqb a b = true <-> a = b.

Lemma unique_In x l : In x (unique eqb l) <-> In x l.
Proof.
  induction l as [ | y l IH]; simpl; [ reflexivity | ].
  rewrite filter_In, IH, negb_true_iff. split.
  - intros [H | [H _]]; auto.
  - intros [H | H]; [ now left | ].
    destruct (eqb y x) eqn:E.
    + left. now apply eqb_eq.
    + right. now split.
Qed.

Lemma unique_NoDup l : NoDup (unique eqb l).
Proof.
  induction l as [ | y l IH]; simpl; constructor.
  - rewrite filter_In, negb_true_iff. intros [_ H].
    assert (eqb y y = true) by now apply eqb_eq. congruence.
  - now apply NoDup_filter.
Qed.

End UniqueFacts.

Lemma decorate_Some {A} (key : A -> option Z) (l : list A) :
  (forall x, In x l -> key x <> None) ->
  exists d, decorate key l = Some d
            /\ map snd d = l
            /\ forall p, In p d -> key (snd p) = Some (fst p).
Proof.
  induction l as [ | x l IH]; intro H; simpl.
  - exists []. repeat split. intros p [].
  - destruct (key x) as [k | ] eqn:E; [ | now destruct (H x (or_introl eq_refl)) ].
    destruct IH as (d & -> & Hd & Hk); [ intros y Hy; apply H; now right | ].
    exists ((k, x) :: d). repeat split.
    + simpl. now rewrite Hd.
    + intros p [<- | Hp]; [ exact E | now apply Hk ].
Qed.

(* ------------------------------------------------------------------ *)
(** ** The normaliser *)

Section NormalizerFacts.
Context {P : Pandas}.

Lemma normalize_rows_In cols raw r :
  In r (normalize_rows cols raw) <->
  exists rr, In rr raw /\ normalize_row cols rr = Some r.
Proof.
  unfold normalize_rows. rewrite in_flat_map. split.
  - intros (rr & Hin & H). exists rr. split; [ exact Hin | ].
    destruct (normalize_row cols rr); simpl in H; [ | contradiction ].
    destruct H as [-> | []]. reflexivity.
  - intros (rr & Hin & E). exists rr. split; [ exact Hin | ].
    rewrite E. now left.
Qed.

(** Every row that survives the normaliser carries the year, the month
    and the month name of its date. *)
Lemma normalized_date_facets cols raw r :
  In r (normalize_rows cols raw) ->
  Year r = d_year (Date r)
  /\ Month r = month_number (d_month (Date r))
  /\ Month_Name r = month_name (d_month (Date r)).
Proof.
  intro H. apply normalize_rows_In in H as (rr & _ & E).
  unfold normalize_row in E. destruct (to_datetime (Raw.Date rr)); [ | discriminate ].
  injection E as <-. repeat split.
Qed.

End NormalizerFacts.

Lemma parse_month_name_of_name m : parse_month_name (month_name m) = Some m.
Proof. destruct m; reflexivity. Qed.

Lemma parse_month_name_Some x m : parse_month_name x = Some m -> month_name m = x.
Proof.
  unfold parse_month_name. intro H. apply find_some in H as [_ H].
  now apply String.eqb_eq.
Qed.

Lemma month_number_inj a b : month_number a = month_number b -> a = b.
Proof. destruct a, b; simpl; intro H; try reflexivity; discriminate. Qed.

(** On names that all are month names, line 59 does not raise and returns
    them in calendar order. *)
Lemma available_months_of_names (rs : list row) :
  (forall r, In r rs -> exists m, Month_Name r = month_name m) ->
  exists names, available_months rs = Some names
                /\ calendar_order names
                /\ forall x, In x names <-> exists r, In r rs /\ Month_Name r = x.
Proof.
  intro Hnames. unfold available_months, sorted.
  set (u := unique String.eqb (map Month_Name rs)).
  assert (Hu : forall x, In x u <-> exists r, In r rs /\ Month_Name r = x).
  { intro x. unfold u. rewrite (unique_In _ String.eqb_eq), in_map_iff.
    split; intros (r & H1 & H2); exists r; tauto. }
  assert (Hkey : forall x, In x u -> month_key x <> None).
  { intros x Hx. apply Hu in Hx as (r & Hr & <-).
    destruct (Hnames r Hr) as (m & ->). unfold month_key.
    now rewrite parse_month_name_of_name. }
  destruct (decorate_Some month_key u Hkey) as (d & -> & Hd & Hk).
  set (S := sort_by (fun kx : Z * string => fst kx) d).
  assert (Hperm : Permutation S d) by apply sort_le_perm.
  assert (Hsorted : StronglySorted (fun a b : Z * string => (fst a <=? fst b)%Z = true) S).
  { apply (sort_le_strongly_sorted (fun a b : Z * string => (fst a <=? fst b)%Z)).
    - intros a b. rewrite !Z.leb_le. lia.
    - intros a b c. rewrite !Z.leb_le. lia. }
  assert (Hnodup : NoDup (map snd S)).
  { apply (Permutation_NoDup (l := u)).
    - rewrite <- Hd. symmetry. now apply Permutation_map.
    - apply unique_NoDup, String.eqb_eq. }
  assert (HkS : forall p, In p S ->
                  exists m, parse_month_name (snd p) = Some m
                            /\ fst p = Z.of_nat (month_number m)).
  { intros p Hp. apply (Permutation_in _ Hperm) in Hp. apply Hk in Hp.
    unfold month_key in Hp. destruct (parse_month_name (snd p)) as [m | ]; [ | discriminate ].
    exists m. split; [ reflexivity | ]. simpl in Hp. congruence. }
  exists (map snd S). split; [ reflexivity | split ].
  - clear Hperm. pose (mo := fun x => match parse_month_name x with
                                      | Some m => m
                                      | None => January
                                      end).
    exists (map mo (map snd S)). split.
    + rewrite map_map. induction S as [ | p S' IH]; [ reflexivity | ].
      simpl. f_equal.
      * destruct (HkS p (or_introl eq_refl)) as (m & E & _).
        unfold mo. rewrite E. symmetry. now apply parse_month_name_Some.
      * apply IH.
        -- now inversion Hsorted.
        -- now inversion Hnodup.
        -- intros q Hq. apply HkS. now right.
    + induction S as [ | p S' IH]; simpl; [ constructor | ].
      inversion Hsorted as [ | ? ? Hs' Hall]; subst.
      inversion Hnodup as [ | ? ? Hnotin Hnd']; subst.
      constructor.
      * apply IH; [ exact Hs' | exact Hnd' | intros q Hq; apply HkS; now right ].
      * rewrite Forall_forall. intros m' Hm'.
        rewrite in_map_iff in Hm'. destruct Hm' as (x & <- & Hx).
        rewrite in_map_iff in Hx. destruct Hx as (q & <- & Hq).
        rewrite Forall_forall in Hall. specialize (Hall q Hq).
        apply Z.leb_le in Hall.
        destruct (HkS p (or_introl eq_refl)) as (mp & Ep & Fp).
        destruct (HkS q (or_intror Hq)) as (mq & Eq & Fq).
        unfold mo. rewrite Ep, Eq.
        assert (month_number mp <> month_number mq).
        { intro E. apply month_number_inj in E. subst mq.
          apply Hnotin. rewrite in_map_iff. exists q. split; [ | exact Hq ].
          apply parse_month_name_Some in Ep, Eq. congruence. }
        lia.
  - intro x. rewrite <- Hu, <- Hd. split; apply Permutation_in.
    + now apply Permutation_map.
    + symmetry. now apply Permutation_map.
Qed.

Lemma calendar_order_NoDup names : calendar_order names -> NoDup names.
Proof.
  intros (ms & -> & Hs).
  induction Hs as [ | m ms Hs IH Hall]; simpl; constructor; [ | exact IH ].
  rewrite in_map_iff. intros (m' & E' & Hm').
  rewrite Forall_forall in Hall. specialize (Hall m' Hm').
  destruct m, m'; simpl in *; try discriminate; lia.
Qed.

(** C9: for every input table, [available_months] returns the distinct
    month names present in the normalised table, sorted by calendar order
    (January to December), not alphabetically. *)
Theorem available_months_calendar_order {P : Pandas} (df : frame Raw.row) :
  exists names,
    available_months (rows (normalize df)) = Some names
    /\ calendar_order names
    /\ NoDup names
    /\ forall x, In x names <-> exists r, In r (rows (normalize df)) /\ Month_Name r = x.
Proof.
  destruct (available_months_of_names (rows (normalize df))) as (names & E & Hc & Hin).
  - intros r Hr. exists (d_month (Date r)).
    now apply (normalized_date_facets (columns df) (rows df)).
  - exists names. split; [ exact E | split; [ exact Hc | split; [ | exact Hin ] ] ].
    now apply calendar_order_NoDup.
Qed.

(* ------------------------------------------------------------------ *)
(** ** The passenger count *)


Section PassengerFacts.
Context {P : Pandas}.




End PassengerFacts.


(* ------------------------------------------------------------------ *)
(** ** The price-range histogram *)

Lemma filter_length_disjoint {A} (p q : A -> bool) (l : list A) :
  (forall x, In x l -> p x = true -> q x = false) ->
  List.length (filter (fun x => p x || q x) l)
  = (List.length (filter p l) + List.length (filter q l))%nat.
Proof.
  induction l as [ | x l IH]; intro H; [ reflexivity | ].
  simpl. rewrite Nat.add_comm.
  destruct (p x) eqn:Ep; simpl.
  - rewrite (H x (or_introl eq_refl) Ep). rewrite IH; [ lia | ].
    intros y Hy. apply H. now right.
  - destruct (q x); simpl; (rewrite IH; [ lia | intros y Hy; apply H; now right ]).
Qed.

Lemma filter_all {A} (f : A -> bool) (l : list A) :
  (forall x, In x l -> f x = true) -> filter f l = l.
Proof.
  induction l as [ | x l IH]; intro H; [ reflexivity | ].
  simpl. rewrite (H x (or_introl eq_refl)). f_equal. apply IH.
  intros y Hy. apply H. now right.
Qed.





(* ------------------------------------------------------------------ *)
(** ** Positional selection *)

Section TakeFacts.
Context {A : Type}.

Lemma take_nil (idx : list nat) : take idx (@nil A) = [].
Proof.
  induction idx as [ | i idx IH]; [ reflexivity | ].
  simpl. now destruct i.
Qed.

Lemma take_app (i1 i2 : list nat) (l : list A) :
  take (i1 ++ i2) l = (take i1 l ++ take i2 l)%list.
Proof. apply flat_map_app. Qed.

Lemma take_rev (idx : list nat) (l : list A) : take (rev idx) l = rev (take idx l).
Proof.
  induction idx as [ | i idx IH]; [ reflexivity | ].
  simpl. rewrite take_app, IH, rev_app_distr. f_equal.
  simpl. destruct (nth_error l i); reflexivity.
Qed.

Lemma take_seq_app (l1 l2 : list A) :
  take (seq (List.length l1) (List.length l2)) (l1 ++ l2) = l2.
Proof.
  revert l1. induction l2 as [ | x l2 IH]; intro l1; [ reflexivity | ].
  simpl. rewrite nth_error_app2, Nat.sub_diag by lia. simpl. f_equal.
  specialize (IH (l1 ++ [x])%list).
  rewrite length_app, Nat.add_1_r, <- app_assoc in IH. exact IH.
Qed.

Lemma take_seq (l : list A) : take (seq 0 (List.length l)) l = l.
Proof. exact (take_seq_app [] l). Qed.

Lemma take_perm (idx idx' : list nat) (l : list A) :
  Permutation idx idx' -> Permutation (take idx l) (take idx' l).
Proof. apply Permutation_flat_map. Qed.

Lemma nth_error_take (idx : list nat) (l : list A) :
  (forall j, In j idx -> (j < List.length l)%nat) ->
  forall i, nth_error (take idx l) i
            = match nth_error idx i with
              | Some j => nth_error l j
              | None => None
              end.
Proof.
  induction idx as [ | j idx IH]; intros H i.
  - now destruct i.
  - simpl. destruct (nth_error l j) as [x | ] eqn:E.
    + destruct i; simpl; [ now rewrite E | ].
      apply IH. intros k Hk. apply H. now right.
    + apply nth_error_None in E. specialize (H j (or_introl eq_refl)). lia.
Qed.

Lemma take_take (idx1 idx2 : list nat) (l : list A) :
  (forall j, In j idx2 -> (j < List.length l)%nat) ->
  take (take idx1 idx2) l = take idx1 (take idx2 l).
Proof.
  intro H. induction idx1 as [ | i idx1 IH]; [ reflexivity | ].
  simpl. rewrite take_app, IH. f_equal.
  rewrite nth_error_take by exact H.
  destruct (nth_error idx2 i) as [j | ]; simpl; [ | reflexivity ].
  now rewrite app_nil_r.
Qed.

End TakeFacts.

Lemma map_take {A B} (f : A -> B) (idx : list nat) (l : list A) :
  map f (take idx l) = take idx (map f l).
Proof.
  induction idx as [ | i idx IH]; [ reflexivity | ].
  simpl. rewrite map_app, IH. f_equal.
  rewrite nth_error_map. destruct (nth_error l i); reflexivity.
Qed.

(* ------------------------------------------------------------------ *)
(** ** Sorted lists *)

Section SortedApp.
Context {A : Type} (R : A -> A -> Prop).

Lemma StronglySorted_app_iff (l1 l2 : list A) :
  StronglySorted R (l1 ++ l2) <->
  StronglySorted R l1 /\ StronglySorted R l2
  /\ forall x y, In x l1 -> In y l2 -> R x y.
Proof.
  induction l1 as [ | a l1 IH]; simpl.
  - split; [ intro H; repeat split; [ constructor | exact H | intros x y [] ] | tauto ].
  - split.
    + intro H. inversion H as [ | ? ? Hs Hall]; subst.
      apply IH in Hs as (H1 & H2 & H3).
      rewrite Forall_app in Hall. destruct Hall as [Ha1 Ha2].
      repeat split; [ now constructor | exact H2 | ].
      intros x y [<- | Hx] Hy; [ | now apply H3 ].
      rewrite Forall_forall in Ha2. now apply Ha2.
    + intros (H1 & H2 & H3). inversion H1 as [ | ? ? Hs Hall]; subst.
      constructor.
      * apply IH. repeat split; [ exact Hs | exact H2 | ].
        intros x y Hx Hy. apply H3; [ now right | exact Hy ].
      * rewrite Forall_app. split; [ exact Hall | ].
        rewrite Forall_forall. intros y Hy. apply H3; [ now left | exact Hy ].
Qed.

End SortedApp.

Section SortedFacts.
Context {A : Type} (R : A -> A -> Prop).

Lemma StronglySorted_rev (l : list A) :
  StronglySorted R l -> StronglySorted (fun a b => R b a) (rev l).
Proof.
  induction 1 as [ | a l Hs IH Hall]; simpl; [ constructor | ].
  apply StronglySorted_app_iff. repeat split.
  - exact IH.
  - repeat constructor.
  - intros x y Hx [<- | []]. rewrite Forall_forall in Hall.
    apply Hall. now apply in_rev.
Qed.

Lemma StronglySorted_firstn (n : nat) (l : list A) :
  StronglySorted R l -> StronglySorted R (firstn n l).
Proof.
  intro H. rewrite <- (firstn_skipn n l) in H.
  now apply StronglySorted_app_iff in H.
Qed.

End SortedFacts.

Lemma StronglySorted_map_inv {A B} (R : B -> B -> Prop) (f : A -> B) (l : list A) :
  StronglySorted R (map f l) -> StronglySorted (fun a b => R (f a) (f b)) l.
Proof.
  induction l as [ | a l IH]; simpl; intro H; [ constructor | ].
  inversion H as [ | ? ? Hs Hall]; subst. constructor; [ now apply IH | ].
  rewrite Forall_forall in *. intros x Hx. apply Hall. now apply in_map.
Qed.

(* ------------------------------------------------------------------ *)
(** ** [sort_values] and [head] *)

Section SortValuesFacts.
Variable argsort : list Q -> list nat.
Context {G : Type} (by_ : G -> Q).

(** A descending [sort_values] sorts the reversed table ascending and
    reverses the result. *)
Lemma sort_values_descending_eq (t : list G) :
  sort_values argsort by_ false t
  = rev (take (argsort (map by_ (rev t))) (rev t)).
Proof.
  unfold sort_values, nargsort.
  rewrite take_rev. f_equal.
  rewrite length_map, map_rev.
  rewrite take_take.
  - now rewrite take_rev, take_seq.
  - intros j Hj. apply in_rev, in_seq in Hj. lia.
Qed.

Hypothesis Hspec : argsort_spec argsort.

Lemma sort_values_perm (t : list G) :
  Permutation (sort_values argsort by_ false t) t.
Proof.
  rewrite sort_values_descending_eq.
  rewrite <- Permutation_rev.
  rewrite (take_perm _ (seq 0 (List.length (rev t)))).
  - rewrite take_seq. symmetry. apply Permutation_rev.
  - destruct (Hspec (map by_ (rev t))) as [Hp _].
    now rewrite length_map in Hp.
Qed.

Lemma sort_values_descending (t : list G) :
  descending by_ (sort_values argsort by_ false t).
Proof.
  rewrite sort_values_descending_eq. unfold descending.
  apply (StronglySorted_rev (fun a b => by_ a <= by_ b)).
  apply (StronglySorted_map_inv Qle by_).
  rewrite map_take. apply Hspec.
Qed.

(** [head(n)] of a descending [sort_values] is the top [n]. *)
Lemma head_sort_values_top_n (n : nat) (t : list G) :
  top_n n by_ t (head n (sort_values argsort by_ false t)).
Proof.
  unfold top_n, head.
  set (s := sort_values argsort by_ false t).
  pose proof (sort_values_perm t) as Hp. fold s in Hp.
  pose proof (sort_values_descending t) as Hd. fold s in Hd.
  split; [ apply firstn_le_length | split; [ now apply StronglySorted_firstn | ] ].
  exists (skipn n s). split; [ now rewrite firstn_skipn | split ].
  - rewrite length_firstn. now rewrite (Permutation_length Hp).
  - unfold descending in Hd. rewrite <- (firstn_skipn n s) in Hd.
    apply StronglySorted_app_iff in Hd as (_ & _ & H).
    intros x y Hx Hy. now apply H.
Qed.

End SortValuesFacts.

(* ------------------------------------------------------------------ *)
(** ** Order of occurrence *)

Lemma before_positions {A} (x y : A) (l : list A) :
  before x y l ->
  exists i j, (i < j)%nat /\ nth_error l i = Some x /\ nth_error l j = Some y.
Proof.
  intros (l1 & l2 & l3 & ->).
  exists (List.length l1), (List.length l1 + S (List.length l2))%nat.
  split; [ lia | split ].
  - rewrite nth_error_app2, Nat.sub_diag by lia. reflexivity.
  - rewrite nth_error_app2 by lia.
    replace (List.length l1 + S (List.length l2) - List.length l1)%nat
      with (S (List.length l2)) by lia.
    simpl. rewrite nth_error_app2, Nat.sub_diag by lia. reflexivity.
Qed.

(** In a list without repetition two elements occur in one order only. *)
Lemma before_asym {A} (x y : A) (l : list A) :
  NoDup l -> before x y l -> before y x l -> False.
Proof.
  intros Hnd H1 H2.
  apply before_positions in H1 as (i & j & Hij & Hi & Hj).
  apply before_positions in H2 as (j' & i' & Hji & Hj' & Hi').
  rewrite NoDup_nth_error in Hnd.
  assert (i = i').
  { apply Hnd; [ apply nth_error_Some; congruence | congruence ]. }
  assert (j = j').
  { apply Hnd; [ apply nth_error_Some; congruence | congruence ]. }
  lia.
Qed.

(* ------------------------------------------------------------------ *)
(** ** Equal metrics under a stable sort kind *)

Lemma StronglySorted_nth_error {A} (R : A -> A -> Prop) (l : list A) :
  StronglySorted R l ->
  forall p q x y, (p < q)%nat -> nth_error l p = Some x -> nth_error l q = Some y -> R x y.
Proof.
  induction 1 as [ | a l Hs IH Hall]; intros p q x y Hpq Hp Hq.
  - destruct p; discriminate.
  - destruct q as [ | q]; [ lia | ]. destruct p as [ | p]; simpl in Hp, Hq.
    + injection Hp as <-. rewrite Forall_forall in Hall.
      apply Hall. eapply nth_error_In. exact Hq.
    + apply (IH p q); [ lia | exact Hp | exact Hq ].
Qed.

Lemma StronglySorted_impl_In {A} (R R2 : A -> A -> Prop) (l : list A) :
  (forall a b, In a l -> In b l -> R a b -> R2 a b) ->
  StronglySorted R l -> StronglySorted R2 l.
Proof.
  intros Himpl H. induction H as [ | a l Hs IH Hall]; constructor.
  - apply IH. intros x y Hx Hy. apply Himpl; now right.
  - rewrite Forall_forall in *. intros y Hy.
    apply Himpl; [ now left | now right | now apply Hall ].
Qed.

Lemma positions_before {A} (l : list A) (i j : nat) (x y : A) :
  (i < j)%nat -> nth_error l i = Some x -> nth_error l j = Some y -> before x y l.
Proof.
  intros Hij Hi Hj.
  apply nth_error_split in Hi as (l1 & l2 & -> & Hlen).
  rewrite nth_error_app2 in Hj by lia.
  replace (j - List.length l1)%nat with (S (j - List.length l1 - 1)) in Hj by lia.
  simpl in Hj. apply nth_error_split in Hj as (l2' & l3 & -> & _).
  now exists l1, l2', l3.
Qed.

Lemma before_rev {A} (x y : A) (l : list A) : before x y (rev l) -> before y x l.
Proof.
  intros (l1 & l2 & l3 & E). exists (rev l3), (rev l2), (rev l1).
  rewrite <- (rev_involutive l), E.
  rewrite rev_app_distr. simpl. rewrite rev_app_distr. simpl.
  now rewrite <- !app_assoc.
Qed.

Lemma before_firstn {A} (n : nat) (x y : A) (l : list A) :
  before x y (firstn n l) -> before x y l.
Proof.
  intros (l1 & l2 & l3 & E). exists l1, l2, (l3 ++ skipn n l)%list.
  rewrite <- (firstn_skipn n l) at 1. rewrite E.
  rewrite <- app_assoc. simpl. now rewrite <- app_assoc.
Qed.

Section StableKind.
Variable argsort : list Q -> list nat.
Context {G : Type} (by_ : G -> Q).
Hypothesis Hspec : argsort_spec argsort.
Hypothesis Hstable : argsort_stable_spec argsort.

(** An ascending sort by a stable kind keeps equal metrics in input order. *)
Lemma take_argsort_stable (l : list G) (x y : G) :
  before x y (take (argsort (map by_ l)) l) -> by_ x == by_ y -> before x y l.
Proof.
  intros Hb E.
  destruct (Hspec (map by_ l)) as [Hperm _]. rewrite length_map in Hperm.
  assert (Hvalid : forall j, In j (argsort (map by_ l)) -> (j < List.length l)%nat).
  { intros j Hj. apply (Permutation_in _ Hperm) in Hj. apply in_seq in Hj. lia. }
  apply before_positions in Hb as (p & q & Hpq & Hp & Hq).
  rewrite nth_error_take in Hp, Hq by exact Hvalid.
  destruct (nth_error (argsort (map by_ l)) p) as [i | ] eqn:Ei; [ | discriminate ].
  destruct (nth_error (argsort (map by_ l)) q) as [j | ] eqn:Ej; [ | discriminate ].
  pose proof (StronglySorted_nth_error _ _ (Hstable (map by_ l)) p q i j Hpq Ei Ej) as Hij.
  apply (positions_before l i j); [ | exact Hp | exact Hq ].
  apply Hij.
  rewrite (nth_error_nth (map by_ l) i 0 (map_nth_error by_ i l Hp)).
  rewrite (nth_error_nth (map by_ l) j 0 (map_nth_error by_ j l Hq)).
  exact E.
Qed.

(** So does a descending [sort_values], and its [head]. *)
Lemma head_sort_values_stable (n : nat) (t : list G) :
  ties_in_input_order by_ t (head n (sort_values argsort by_ false t)).
Proof.
  intros x y Hb E. unfold head in Hb. apply before_firstn in Hb.
  rewrite sort_values_descending_eq in Hb. apply before_rev in Hb.
  apply take_argsort_stable in Hb; [ | now symmetry ].
  apply before_rev. exact Hb.
Qed.

End StableKind.

Lemma head_sort_values_top_n_by (argsort : list Q -> list nat) {G} (by_ : G -> Q)
      (n : nat) (t : list G) :
  argsort_spec argsort ->
  top_n_by argsort n by_ t (head n (sort_values argsort by_ false t)).
Proof.
  intro Hspec. split.
  - now apply head_sort_values_top_n.
  - intro Hstable. now apply head_sort_values_stable.
Qed.

(** C5, as the code has it: each of the six top-N aggregations returns the
    top N groups of its grouped table by its metric: at most N rows, sorted
    descending by the metric, no group left out having a larger metric than
    one returned.  This holds for every sort kind of numpy.  Groups of equal
    metric keep the order of the grouped table when the sort kind is stable;
    otherwise their order is the one the sort leaves. *)
Theorem top_n_aggregations (argsort : list Q -> list nat) (ticketed : list row) :
  argsort_spec argsort ->
  top_n_by argsort 10 snd (groupby_sum To Total_Price ticketed)
           (top_dests argsort ticketed)
  /\ top_n_by argsort 15 rr_Commission (route_totals ticketed)
              (top_routes_commission argsort ticketed)
  /\ top_n_by argsort 10 snd (groupby_sum Payment_Method Commission ticketed)
              (bank_df argsort ticketed)
  /\ top_n_by argsort 10 snd (groupby_sum Airport Commission ticketed)
              (airport_commission argsort ticketed)
  /\ top_n_by argsort 10 snd (groupby_sum Airport Total_Price ticketed)
              (airport_sales argsort ticketed)
  /\ top_n_by argsort 15 booking_count (counts Airport ticketed)
              (airport_bookings argsort ticketed).
Proof.
  intro Hspec. repeat apply conj; now apply head_sort_values_top_n_by.
Qed.

(* ------------------------------------------------------------------ *)
(** ** The stable sort kind meets numpy's promise *)

Lemma StronglySorted_map {A B} (R : B -> B -> Prop) (f : A -> B) (l : list A) :
  StronglySorted (fun a b => R (f a) (f b)) l -> StronglySorted R (map f l).
Proof.
  induction 1 as [ | a l Hs IH Hall]; simpl; constructor; [ exact IH | ].
  rewrite Forall_forall in *. intros y Hy.
  apply in_map_iff in Hy as (x & <- & Hx). now apply Hall.
Qed.

Lemma combine_seq_fst {A} (l : list A) (k : nat) :
  map fst (combine (seq k (List.length l)) l) = seq k (List.length l).
Proof.
  revert k. induction l as [ | x l IH]; intro k; simpl; [ reflexivity | ].
  now rewrite IH.
Qed.

Lemma combine_seq_nth {A} (l : list A) (k : nat) (p : nat * A) :
  In p (combine (seq k (List.length l)) l) ->
  (k <= fst p)%nat /\ nth_error l (fst p - k) = Some (snd p).
Proof.
  revert k. induction l as [ | x l IH]; intros k H; simpl in H; [ contradiction | ].
  destruct H as [<- | H]; simpl.
  - split; [ lia | ]. now rewrite Nat.sub_diag.
  - apply IH in H as [H1 H2]. split; [ lia | ].
    replace (fst p - k)%nat with (S (fst p - S k)) by lia. exact H2.
Qed.

Lemma take_fst_snd {A} (s : list (nat * A)) (l : list A) :
  (forall p, In p s -> nth_error l (fst p) = Some (snd p)) ->
  take (map fst s) l = map snd s.
Proof.
  induction s as [ | p s IH]; intro H; [ reflexivity | ].
  simpl. rewrite (H p (or_introl eq_refl)). simpl. f_equal.
  apply IH. intros q Hq. apply H. now right.
Qed.

Lemma argsort_stable_meets_spec : argsort_spec Numpy.argsort_stable.
Proof.
  intro v. unfold Numpy.argsort_stable.
  set (leb := fun a b : nat * Q => Qle_bool (snd a) (snd b)).
  set (c := combine (seq 0 (List.length v)) v).
  split.
  - rewrite <- (combine_seq_fst v 0). apply Permutation_map, sort_le_perm.
  - rewrite take_fst_snd.
    + apply (StronglySorted_map Qle snd).
      assert (H : StronglySorted (fun a b => leb a b = true) (sort_le leb c)).
      { apply sort_le_strongly_sorted; unfold leb.
        - intros a b. rewrite !Qle_bool_iff.
          destruct (Qlt_le_dec (snd b) (snd a)); [ right; now apply Qlt_le_weak | now left ].
        - intros a b d. rewrite !Qle_bool_iff. apply Qle_trans. }
      induction H as [ | a l Hs IH Hall]; constructor; [ exact IH | ].
      rewrite Forall_forall in *. intros y Hy. apply Qle_bool_iff. now apply Hall.
    + intros p Hp. apply (Permutation_in _ (sort_le_perm leb c)) in Hp.
      apply combine_seq_nth in Hp as [_ Hp]. now rewrite Nat.sub_0_r in Hp.
Qed.

(** The insertion sort is stable: of two elements that are equal for
    [leb], the one of smaller position comes first. *)
Section InsertionStable.
Context {A : Type} (leb : A -> A -> bool) (pos : A -> nat).
Hypothesis leb_total : forall a b, leb a b = true \/ leb b a = true.
Hypothesis leb_trans : forall a b c, leb a b = true -> leb b c = true -> leb a c = true.

Let ordered (a b : A) : Prop :=
  leb a b = true /\ (leb b a = true -> (pos a < pos b)%nat).

Lemma insert_le_stable (x : A) (s : list A) :
  StronglySorted ordered s ->
  Forall (fun y => (pos x < pos y)%nat) s ->
  StronglySorted ordered (insert_le leb x s).
Proof.
  induction 1 as [ | y s Hs IH Hall]; intro Hpos; simpl.
  - repeat constructor.
  - inversion Hpos as [ | ? ? Hy Hpos']; subst.
    destruct (leb x y) eqn:E.
    + constructor; [ now constructor | ].
      constructor.
      * split; [ exact E | intros _; exact Hy ].
      * rewrite Forall_forall in *. intros z Hz. split.
        -- apply (leb_trans x y z E). now apply Hall.
        -- intros _. now apply Hpos'.
    + constructor; [ now apply IH | ].
      rewrite Forall_forall in *. intros z Hz.
      apply (Permutation_in _ (insert_le_perm leb x s)) in Hz.
      destruct Hz as [<- | Hz]; [ | now apply Hall ].
      split; [ | congruence ].
      destruct (leb_total x y); [ congruence | assumption ].
Qed.

Lemma sort_le_stable (l : list A) :
  StronglySorted (fun a b => (pos a < pos b)%nat) l ->
  StronglySorted ordered (sort_le leb l).
Proof.
  induction 1 as [ | x l Hs IH Hall]; simpl; [ constructor | ].
  apply insert_le_stable; [ exact IH | ].
  rewrite Forall_forall in *. intros y Hy.
  apply Hall. now apply (Permutation_in _ (sort_le_perm leb l)).
Qed.

End InsertionStable.

Lemma combine_seq_sorted {A} (l : list A) (k : nat) :
  StronglySorted (fun a b : nat * A => (fst a < fst b)%nat)
                 (combine (seq k (List.length l)) l).
Proof.
  revert k. induction l as [ | x l IH]; intro k; simpl; constructor; [ apply IH | ].
  rewrite Forall_forall. intros p Hp. apply combine_seq_nth in Hp. simpl. lia.
Qed.

Lemma argsort_stable_is_stable : argsort_stable_spec Numpy.argsort_stable.
Proof.
  intro v. unfold Numpy.argsort_stable.
  set (leb := fun a b : nat * Q => Qle_bool (snd a) (snd b)).
  set (c := combine (seq 0 (List.length v)) v).
  apply (StronglySorted_map (fun i j => nth i v 0 == nth j v 0 -> (i < j)%nat) fst).
  apply (StronglySorted_impl_In
           (fun a b => leb a b = true /\ (leb b a = true -> (fst a < fst b)%nat))).
  - intros a b Ha Hb [_ H] E. apply H. unfold leb. apply Qle_bool_iff.
    apply (Permutation_in _ (sort_le_perm leb c)) in Ha, Hb.
    apply combine_seq_nth in Ha as [_ Ha], Hb as [_ Hb].
    rewrite Nat.sub_0_r in Ha, Hb.
    rewrite (nth_error_nth v _ 0 Ha), (nth_error_nth v _ 0 Hb) in E.
    rewrite E. apply Qle_refl.
  - apply (sort_le_stable leb fst); unfold leb.
    + intros a b. rewrite !Qle_bool_iff.
      destruct (Qlt_le_dec (snd b) (snd a)); [ right; now apply Qlt_le_weak | now left ].
    + intros a b d. rewrite !Qle_bool_iff. apply Qle_trans.
    + apply combine_seq_sorted.
Qed.

(** The sort that reverses equal items meets numpy's promise too. *)
Lemma argsort_ties_reversed_meets_spec : argsort_spec argsort_ties_reversed.
Proof.
  intro v. unfold argsort_ties_reversed.
  set (leb := fun a b : nat * Q => Qle_bool (snd b) (snd a)).
  set (c := combine (seq 0 (List.length v)) v).
  split.
  - rewrite <- Permutation_rev, <- (combine_seq_fst v 0).
    apply Permutation_map, sort_le_perm.
  - rewrite take_rev, take_fst_snd.
    + apply (StronglySorted_rev (fun a b => b <= a)).
      apply (StronglySorted_map (fun a b => b <= a) snd).
      assert (H : StronglySorted (fun a b => leb a b = true) (sort_le leb c)).
      { apply sort_le_strongly_sorted; unfold leb.
        - intros a b. rewrite !Qle_bool_iff.
          destruct (Qlt_le_dec (snd b) (snd a)); [ left; now apply Qlt_le_weak | now right ].
        - intros a b d. rewrite !Qle_bool_iff. intros H1 H2. now apply (Qle_trans _ (snd b)). }
      induction H as [ | a l Hs IH Hall]; constructor; [ exact IH | ].
      rewrite Forall_forall in *. intros y Hy. apply Qle_bool_iff. now apply Hall.
    + intros p Hp. apply (Permutation_in _ (sort_le_perm leb c)) in Hp.
      apply combine_seq_nth in Hp as [_ Hp]. now rewrite Nat.sub_0_r in Hp.
Qed.

(* ------------------------------------------------------------------ *)
(** ** The script *)

Lemma existsb_In (c : string) (cols : list string) :
  existsb (String.eqb c) cols = true <-> In c cols.
Proof. exact (isin_string c cols). Qed.

Lemma existsb_not_In (c : string) (cols : list string) :
  existsb (String.eqb c) cols = false <-> ~ In c cols.
Proof.
  rewrite <- existsb_In. destruct (existsb (String.eqb c) cols); split; congruence.
Qed.


Section AggregationsOfNothing.
Variable argsort : list Q -> list nat.

Lemma sort_values_nil {G} (by_ : G -> Q) (ascending : bool) :
  sort_values argsort by_ ascending [] = [].
Proof. apply take_nil. Qed.









End AggregationsOfNothing.

Lemma show_date_range_run (filtered : list row) (log : list event) :
  show_date_range filtered log = ((log ++ date_range_events filtered)%list, Returned tt).
Proof.
  unfold show_date_range, date_range_events.
  destruct (map Date filtered); [ | reflexivity ].
  unfold ret. now rewrite app_nil_r.
Qed.

Lemma date_range_events_no_result (filtered : list row) :
  forallb (fun ev => negb (shows_result ev)) (date_range_events filtered) = true.
Proof. unfold date_range_events. destruct (map Date filtered); reflexivity. Qed.

(** Runs the steps of the script as far as they are determined. *)
Ltac run :=
  repeat (cbv [bind ret raise emit]; rewrite ?show_date_range_run);
  rewrite <- ?app_assoc; cbn [app].

(** Unfolds the column checks of [dashboard] down to membership tests on
    the columns of the loaded frame. *)
Ltac column_checks :=
  unfold dashboard, getitem, check_subset, missing_columns;
  cbv zeta; cbn [columns normalize filter].

(** Discharges the column checks of a run on a frame that has every
    required column. *)
Ltac columns_present Hcols :=
  repeat (rewrite ?existsb_app;
          match goal with
          | |- context [existsb (String.eqb ?c) (columns ?df)] =>
              rewrite (proj2 (existsb_In c (columns df)))
                by (apply Hcols; unfold required_columns; simpl; tauto)
          end);
  cbn [orb negb].

(** The column [c] is present in this branch and assumed absent. *)
Ltac absent_early Hearly :=
  exfalso; simpl in Hearly;
  repeat (destruct Hearly as [<- | Hearly]; [ congruence | ]); contradiction.

(** The run raises at the check just decided. *)
Ltac aborts_here :=
  do 2 eexists; split;
  [ run; reflexivity
  | first [ reflexivity
          | intros _; apply date_range_events_no_result
          | let Hearly := fresh "Hearly" in intro Hearly; absent_early Hearly ] ].

(** Decides whether the frame has the column [col]; without it the run
    raises here. *)
Ltac check col :=
  let H := fresh "Hpresent" in
  destruct (existsb (String.eqb col) (columns _)) eqn:H; cbn [negb];
  [ | solve [ aborts_here ] ].

Section ScriptFacts.
Context {P : Pandas}.
Variable argsort : list Q -> list nat.
Variable read_excel : string -> outcome (frame Raw.row).

Lemma available_months_normalized (df : frame Raw.row) :
  exists names, available_months (rows (normalize df)) = Some names.
Proof.
  destruct (available_months_of_names (rows (normalize df))) as (names & E & _).
  - intros r Hr. exists (d_month (Date r)).
    now apply (normalized_date_facets (columns df) (rows df)).
  - now exists names.
Qed.


(** A run on a frame that has every required column ends without an
    exception. *)
Lemma dashboard_completes (df : frame Raw.row) (selected_years : list Z)
      (selected_months : list string) :
  (forall c, In c required_columns -> In c (columns df)) ->
  exists log, dashboard argsort df selected_years selected_months [] = (log, Returned tt).
Proof.
  intros Hcols.
  destruct (available_months_normalized df) as (names & Hnames).
  column_checks. rewrite Hnames.
  columns_present Hcols.
  run. eexists. reflexivity.
Qed.

(** A failed retrieval is caught in the loader: it shows the error and
    returns [None], whatever the log was. *)
Lemma load_data_failure (url : string) (e : exn) (log : list event) :
  read_excel url = Raised e ->
  load_data read_excel url log
  = ((log ++ [st_error ("Failed to load Excel file: " ++ str_exn e)])%list,
     Returned None).
Proof.
  intro H. unfold load_data, try_except, bind. rewrite H. reflexivity.
Qed.

Lemma load_data_success (url : string) (df : frame Raw.row) (log : list event) :
  read_excel url = Returned df ->
  load_data read_excel url log = (log, Returned (Some df)).
Proof.
  intro H. unfold load_data, try_except, bind. rewrite H. reflexivity.
Qed.

End ScriptFacts.

(** A run on a frame that lacks a required column ends with an exception,
    and before any metric or chart when the column is one of the first
    four the script reads. *)
Lemma dashboard_aborts {P : Pandas} (argsort : list Q -> list nat)
      (df : frame Raw.row) (selected_years : list Z) (selected_months : list string)
      (c : string) :
  In c required_columns ->
  ~ In c (columns df) ->
  exists log e,
    dashboard argsort df selected_years selected_months [] = (log, Raised e)
    /\ (In c ["Date"; "Ticket Numbers"; "Total Price"; "Commission"] ->
        forallb (fun ev => negb (shows_result ev)) log = true).
Proof.
  intros Hreq Hmiss. apply existsb_not_In in Hmiss.
  destruct (available_months_normalized df) as (names & Hnames).
  column_checks. rewrite Hnames.
  rewrite !existsb_app.
  repeat match goal with
         | |- context [existsb (String.eqb ?x) ["Year"; "Month"; "Month_Name"]] =>
             change (existsb (String.eqb x) ["Year"; "Month"; "Month_Name"]) with false
         end.
  rewrite !orb_false_r.
  check "Date". check "Ticket Numbers". check "Total Price". check "Commission".
  check "No Passengers". check "From". check "To". check "Type".
  check "Payment Method". check "Airport".
  exfalso. unfold required_columns in Hreq. simpl in Hreq.
  repeat (destruct Hreq as [<- | Hreq]; [ congruence | ]). contradiction.
Qed.


(** C7: when the retrieval or the parsing of the remote resource fails, the
    loader returns [None] and shows an error message; the exception does not
    reach its caller, and the script then shows a warning and the guidance
    text and ends without an exception. *)
Theorem load_failure_contained {P : Pandas} (argsort : list Q -> list nat)
        (read_excel : string -> outcome (frame Raw.row))
        (selected_years : list Z) (selected_months : list string) (e : exn) :
  read_excel file_url = Raised e ->
  (forall log,
      load_data read_excel file_url log
      = ((log ++ [st_error ("Failed to load Excel file: " ++ str_exn e)])%list,
         Returned None))
  /\ app argsort read_excel selected_years selected_months []
     = ([st_error ("Failed to load Excel file: " ++ str_exn e);
         st_warning "Please check if the Excel file exists at the specified path.";
         st_info guidance],
        Returned tt).
Proof.
  intro H. split.
  - intro log. now apply load_data_failure.
  - unfold app. unfold bind at 1. rewrite (load_data_failure _ _ _ _ H).
    reflexivity.
Qed.


(* ------------------------------------------------------------------ *)
(** ** The claims on the sample tables *)

(** The scenario of the specification: rows A and B, filtered for 2024 and
    January: two rows pass the filter, row A alone is ticketed, and the bin
    [0–5K] counts one ticket. *)
Example scenario_two_rows :
  let df := @normalize Sample.pandas {| columns := Sample.all_columns;
                                       rows := [Sample.row_A; Sample.row_B] |} in
  let filtered := filtered_df (rows df) [2024%Z] ["January"] in
  let ticketed := @ticketed_df Sample.pandas filtered in
  List.length filtered = 2%nat
  /\ map Ticket_Numbers ticketed = [CStr "ABC123"]
  /\ map (fun r => (Fixed_Price_Range r, Ticket_Count r)) (range_counts ticketed)
     = [("0–5K", 1%nat); ("5K–10K", 0%nat); ("10K–15K", 0%nat); ("15K–20K", 0%nat);
        ("20K–30K", 0%nat); ("30K–40K", 0%nat); ("40K–60K", 0%nat);
        ("60K–100K", 0%nat); ("100K+", 0%nat)].
Proof. vm_compute. repeat split. Qed.

(** April sorts after March, not first as alphabetically. *)
Example months_not_alphabetical :
  available_months Sample.normalized = Some ["January"; "March"; "April"].
Proof. reflexivity. Qed.


(** C10 on the sample table: the booking without ticket numbers is
    ticketed. *)
Lemma null_ticket_numbers_retained_witness :
  In Sample.normalized_C Sample.normalized
  /\ Ticket_Numbers Sample.normalized_C = CNull
  /\ In Sample.normalized_C (@ticketed_df Sample.pandas Sample.normalized).
Proof.
  assert (H1 : In Sample.normalized_C Sample.normalized).
  { right. right. left. reflexivity. }
  assert (H2 : Ticket_Numbers Sample.normalized_C = CNull) by reflexivity.
  split; [ exact H1 | split; [ exact H2 | ] ].
  apply (@null_ticket_numbers_retained Sample.pandas Sample.normalized
           Sample.normalized_C H1 H2).
  - discriminate.
  - discriminate.
Defined.





(** C5 as stated fails: eighteen destinations of equal sales, sorted with
    numpy's quicksort; the top ten list [D26] before [D25], which follows it
    in the grouped table. *)
Lemma quicksort_reorders_ties :
  top_dests Numpy.argsort_quicksort Sample.eighteen
  = [("D10", 4000); ("D11", 4000); ("D26", 4000); ("D25", 4000); ("D24", 4000);
     ("D23", 4000); ("D22", 4000); ("D21", 4000); ("D20", 4000); ("D19", 4000)]
  /\ ~ ties_in_input_order snd (groupby_sum To Total_Price Sample.eighteen)
                           (top_dests Numpy.argsort_quicksort Sample.eighteen).
Proof.
  split; [ vm_compute; reflexivity | ].
  intro H.
  assert (Hout : before ("D26", 4000) ("D25", 4000)
                        (top_dests Numpy.argsort_quicksort Sample.eighteen)).
  { exists [("D10", 4000); ("D11", 4000)], [],
      [("D24", 4000); ("D23", 4000); ("D22", 4000); ("D21", 4000); ("D20", 4000);
       ("D19", 4000)].
    vm_compute. reflexivity. }
  pose proof (H _ _ Hout (Qeq_refl _)) as Hback.
  assert (Hin : before ("D25", 4000) ("D26", 4000)
                       (groupby_sum To Total_Price Sample.eighteen)).
  { exists (map (fun i => ("D" ++ Sample.print_int (Z.of_nat (10 + i)), 4000)) (seq 0 15)),
      [], [("D27", 4000)].
    vm_compute. reflexivity. }
  refine (before_asym _ _ _ _ Hback Hin).
  apply (NoDup_map_inv fst). vm_compute.
  repeat (constructor; [ simpl; intuition discriminate | ]). constructor.
Qed.

(** Numpy's promise alone does not fix the order of equal metrics: a sort
    that meets it lists the second of two destinations of equal sales
    first. *)
Lemma promise_allows_reordering :
  argsort_spec argsort_ties_reversed
  /\ groupby_sum To Total_Price Sample.two_destinations = [("D10", 4000); ("D11", 4000)]
  /\ top_dests argsort_ties_reversed Sample.two_destinations
     = [("D11", 4000); ("D10", 4000)].
Proof.
  split; [ exact argsort_ties_reversed_meets_spec | split; vm_compute; reflexivity ].
Qed.

(** C5 as amended, on the eighteen destinations and the stable sort. *)
Lemma top_n_aggregations_witness :
  argsort_spec Numpy.argsort_stable
  /\ argsort_stable_spec Numpy.argsort_stable
  /\ top_n 10 snd (groupby_sum To Total_Price Sample.eighteen)
           (top_dests Numpy.argsort_stable Sample.eighteen)
  /\ ties_in_input_order snd (groupby_sum To Total_Price Sample.eighteen)
                         (top_dests Numpy.argsort_stable Sample.eighteen).
Proof.
  split; [ exact argsort_stable_meets_spec | ].
  split; [ exact argsort_stable_is_stable | ].
  destruct (top_n_aggregations Numpy.argsort_stable Sample.eighteen
              argsort_stable_meets_spec) as [[H1 H2] _].
  split; [ exact H1 | exact (H2 argsort_stable_is_stable) ].
Defined.



(** C7 on a loader that cannot reach the file. *)
Lemma load_failure_contained_witness :
  Sample.unreachable file_url = Raised (Exception "HTTP Error 404: Not Found")
  /\ @app Sample.pandas Numpy.argsort_quicksort Sample.unreachable [] [] []
     = ([st_error "Failed to load Excel file: HTTP Error 404: Not Found";
         st_warning "Please check if the Excel file exists at the specified path.";
         st_info guidance],
        Returned tt).
Proof.
  split; [ reflexivity | ].
  apply (@load_failure_contained Sample.pandas Numpy.argsort_quicksort Sample.unreachable
           [] [] (Exception "HTTP Error 404: Not Found") eq_refl).
Defined.


(* ================================================================== *)
(** * Further properties *)

(* ------------------------------------------------------------------ *)
(** ** Further properties: the normaliser *)




(** X2: every row that survives the normaliser carries the facets of its
    date: its year, its month number, which is between 1 and 12, and its
    month name, which the sort key of the month filter reads back as that
    number. *)
Theorem normalized_facets_of_date {P : Pandas} (df : frame Raw.row) (r : row) :
  In r (rows (normalize df)) ->
  Year r = d_year (Date r)
  /\ Month r = month_number (d_month (Date r))
  /\ (1 <= Month r <= 12)%nat
  /\ Month_Name r = month_name (d_month (Date r))
  /\ month_key (Month_Name r) = Some (Z.of_nat (Month r)).
Proof.
  intro H. apply (normalized_date_facets (columns df) (rows df)) in H as (H1 & H2 & H3).
  split; [ exact H1 | split; [ exact H2 | split; [ | split; [ exact H3 | ] ] ] ].
  - rewrite H2. destruct (d_month (Date r)); simpl; lia.
  - rewrite H3, H2. unfold month_key. now rewrite parse_month_name_of_name.
Qed.

(* ------------------------------------------------------------------ *)
(** ** Further properties: the filter engine *)

Lemma StronglySorted_strict {A} (R R' : A -> A -> Prop) (l : list A) :
  (forall a b, R a b -> a <> b -> R' a b) ->
  NoDup l -> StronglySorted R l -> StronglySorted R' l.
Proof.
  intros Hs Hnd H. induction H as [ | a l Hl IH Hall]; constructor.
  - apply IH. now inversion Hnd.
  - inversion Hnd as [ | ? ? Hnotin _]; subst.
    rewrite Forall_forall in *. intros b Hb.
    apply Hs; [ now apply Hall | ]. intros ->. contradiction.
Qed.

Lemma available_years_membership (rs : list row) (y : Z) :
  In y (available_years rs) <-> exists r, In r rs /\ Year r = y.
Proof.
  unfold available_years, sort_by.
  set (leb := fun x y : Z => (- x <=? - y)%Z).
  set (u := unique Z.eqb (map Year rs)).
  transitivity (In y u).
  - split; apply Permutation_in; [ apply sort_le_perm | symmetry; apply sort_le_perm ].
  - unfold u. rewrite (unique_In _ Z.eqb_eq), in_map_iff.
    split; intros (r & H1 & H2); exists r; tauto.
Qed.

(** X3: the options of the year filter are the years present in the table,
    each once, from the latest to the earliest. *)
Theorem available_years_descending (rs : list row) :
  StronglySorted (fun a b => (b < a)%Z) (available_years rs)
  /\ forall y, In y (available_years rs) <-> exists r, In r rs /\ Year r = y.
Proof.
  unfold available_years, sort_by.
  set (leb := fun x y : Z => (- x <=? - y)%Z).
  set (u := unique Z.eqb (map Year rs)).
  pose proof (sort_le_perm leb u) as Hperm.
  split.
  - apply (StronglySorted_strict (fun a b => leb a b = true)).
    + unfold leb. intros a b H Hne. apply Z.leb_le in H. lia.
    + apply (Permutation_NoDup (l := u)); [ now symmetry | ].
      apply unique_NoDup, Z.eqb_eq.
    + apply sort_le_strongly_sorted; unfold leb.
      * intros a b. rewrite !Z.leb_le. lia.
      * intros a b c. rewrite !Z.leb_le. lia.
  - apply available_years_membership.
Qed.

(** X4: the default selection, every available year and every available
    month, keeps the whole normalised table. *)
Theorem default_selection_keeps_all {P : Pandas} (df : frame Raw.row) :
  exists names,
    available_months (rows (normalize df)) = Some names
    /\ filtered_df (rows (normalize df)) (available_years (rows (normalize df))) names
       = rows (normalize df).
Proof.
  destruct (available_months_of_names (rows (normalize df))) as (names & E & _ & Hin).
  { intros r Hr. exists (d_month (Date r)).
    now apply (normalized_date_facets (columns df) (rows df)). }
  exists names. split; [ exact E | ].
  set (rs := rows (normalize df)) in *.
  assert (Hy : forall r, In r rs -> isin Z.eqb (Year r) (available_years rs) = true).
  { intros r Hr. apply isin_Z.
    apply (proj2 (available_years_membership rs (Year r))). now exists r. }
  assert (Hm : forall r, In r rs -> isin String.eqb (Month_Name r) names = true).
  { intros r Hr. apply isin_string. apply Hin. now exists r. }
  unfold filtered_df.
  destruct (available_years rs); destruct names;
    rewrite ?filter_filter; try reflexivity; apply filter_all; intros r Hr;
    rewrite ?Hy, ?Hm by exact Hr; reflexivity.
Qed.

Lemma filter_comm {A} (f g : A -> bool) (l : list A) :
  filter f (filter g l) = filter g (filter f l).
Proof. rewrite !filter_filter. apply filter_ext. intro x. apply andb_comm. Qed.

Lemma filter_idem {A} (f : A -> bool) (l : list A) : filter f (filter f l) = filter f l.
Proof. rewrite filter_filter. apply filter_ext. intro x. now destruct (f x). Qed.

(** X5: filtering twice with the same selections changes nothing more, and
    the order of the two facets does not matter: the months first and the
    years after give the same table as the script's years first. *)
Theorem filter_idempotent_and_commutes (rs : list row) (selected_years : list Z)
        (selected_months : list string) :
  filtered_df (filtered_df rs selected_years selected_months)
              selected_years selected_months
  = filtered_df rs selected_years selected_months
  /\ filtered_df (filtered_df rs [] selected_months) selected_years []
     = filtered_df rs selected_years selected_months.
Proof.
  unfold filtered_df. split.
  - destruct selected_years, selected_months; try reflexivity;
      rewrite !filter_filter; apply filter_ext; intro r;
      repeat match goal with
             | |- context [isin ?e ?x ?l] => destruct (isin e x l)
             end; reflexivity.
  - destruct selected_years, selected_months; try reflexivity. apply filter_comm.
Qed.

(* ------------------------------------------------------------------ *)
(** ** Further properties: the date range *)

Lemma date_leb_spec (a b : date) :
  date_leb a b = true <->
  (d_year a < d_year b)%Z
  \/ (d_year a = d_year b
      /\ ((month_number (d_month a) < month_number (d_month b))%nat
          \/ (month_number (d_month a) = month_number (d_month b)
              /\ (d_day a <= d_day b)%nat))).
Proof.
  unfold date_leb.
  destruct (Z.ltb_spec (d_year a) (d_year b)); [ intuition lia | ].
  destruct (Z.ltb_spec (d_year b) (d_year a)); [ intuition (try discriminate; lia) | ].
  destruct (Nat.ltb_spec (month_number (d_month a)) (month_number (d_month b)));
    [ intuition lia | ].
  destruct (Nat.ltb_spec (month_number (d_month b)) (month_number (d_month a)));
    [ intuition (try discriminate; lia) | ].
  rewrite Nat.leb_le. intuition lia.
Qed.

Lemma date_leb_refl (a : date) : date_leb a a = true.
Proof. apply date_leb_spec. right. split; [ reflexivity | right; split; lia ]. Qed.

Lemma date_leb_trans (a b c : date) :
  date_leb a b = true -> date_leb b c = true -> date_leb a c = true.
Proof. rewrite !date_leb_spec. intuition lia. Qed.

Lemma date_leb_total (a b : date) : date_leb a b = true \/ date_leb b a = true.
Proof. rewrite !date_leb_spec. lia. Qed.

Lemma min_date_least (ds : list date) : forall d,
  In (min_date d ds) (d :: ds)
  /\ forall x, In x (d :: ds) -> date_leb (min_date d ds) x = true.
Proof.
  induction ds as [ | y ds IH]; intro d; unfold min_date in *; simpl.
  - split; [ now left | intros x [<- | []]; apply date_leb_refl ].
  - set (m := if date_leb y d then y else d).
    destruct (IH m) as [Hin Hle].
    assert (Hm : m = y \/ m = d) by (unfold m; destruct (date_leb y d); auto).
    assert (Hmd : date_leb m d = true).
    { unfold m. destruct (date_leb y d) eqn:E; [ exact E | apply date_leb_refl ]. }
    assert (Hmy : date_leb m y = true).
    { unfold m. destruct (date_leb y d) eqn:E; [ apply date_leb_refl | ].
      destruct (date_leb_total y d); congruence. }
    split.
    + simpl in Hin. destruct Hin as [Hin | Hin]; [ | auto ].
      rewrite <- Hin. destruct Hm as [-> | ->]; auto.
    + intros x [<- | [<- | Hx]].
      * apply (date_leb_trans _ m); [ apply Hle; now left | exact Hmd ].
      * apply (date_leb_trans _ m); [ apply Hle; now left | exact Hmy ].
      * apply Hle. now right.
Qed.

Lemma max_date_greatest (ds : list date) : forall d,
  In (max_date d ds) (d :: ds)
  /\ forall x, In x (d :: ds) -> date_leb x (max_date d ds) = true.
Proof.
  induction ds as [ | y ds IH]; intro d; unfold max_date in *; simpl.
  - split; [ now left | intros x [<- | []]; apply date_leb_refl ].
  - set (m := if date_leb d y then y else d).
    destruct (IH m) as [Hin Hle].
    assert (Hm : m = y \/ m = d) by (unfold m; destruct (date_leb d y); auto).
    assert (Hmd : date_leb d m = true).
    { unfold m. destruct (date_leb d y) eqn:E; [ exact E | apply date_leb_refl ]. }
    assert (Hmy : date_leb y m = true).
    { unfold m. destruct (date_leb d y) eqn:E; [ apply date_leb_refl | ].
      destruct (date_leb_total d y); congruence. }
    split.
    + simpl in Hin. destruct Hin as [Hin | Hin]; [ | auto ].
      rewrite <- Hin. destruct Hm as [-> | ->]; auto.
    + intros x [<- | [<- | Hx]].
      * apply (date_leb_trans _ m); [ exact Hmd | apply Hle; now left ].
      * apply (date_leb_trans _ m); [ exact Hmy | apply Hle; now left ].
      * apply Hle. now right.
Qed.

(** X6: the sidebar shows no date range when no row passes the filter;
    otherwise it shows one range, whose ends are dates of filtered rows and
    enclose the date of every filtered row. *)
Theorem date_range_encloses_filtered (filtered : list row) (log : list event) :
  match filtered with
  | [] => show_date_range filtered log = (log, Returned tt)
  | _ :: _ =>
      exists lo hi,
        show_date_range filtered log
        = ((log ++ [st_info_date_range lo hi])%list, Returned tt)
        /\ In lo (map Date filtered) /\ In hi (map Date filtered)
        /\ forall r, In r filtered ->
                     date_leb lo (Date r) = true /\ date_leb (Date r) hi = true
  end.
Proof.
  destruct filtered as [ | r0 rest]; [ reflexivity | ].
  unfold show_date_range. cbn [map].
  destruct (min_date_least (map Date rest) (Date r0)) as [Hlo1 Hlo2].
  destruct (max_date_greatest (map Date rest) (Date r0)) as [Hhi1 Hhi2].
  eexists. eexists. split; [ reflexivity | ].
  split; [ exact Hlo1 | split; [ exact Hhi1 | ] ].
  intros r Hr. apply (in_map Date) in Hr. split; [ now apply Hlo2 | now apply Hhi2 ].
Qed.

(* ------------------------------------------------------------------ *)
(** ** Further properties: group-by *)

Lemma string_leb_trans (s1 : string) : forall s2 s3,
  String.leb s1 s2 = true -> String.leb s2 s3 = true -> String.leb s1 s3 = true.
Proof.
  unfold String.leb.
  induction s1 as [ | a s1 IH]; intros [ | b s2] [ | c s3]; simpl; try congruence.
  unfold Ascii.compare.
  destruct (N.compare_spec (N_of_ascii a) (N_of_ascii b)) as [E1 | L1 | G1];
    destruct (N.compare_spec (N_of_ascii b) (N_of_ascii c)) as [E2 | L2 | G2];
    destruct (N.compare_spec (N_of_ascii a) (N_of_ascii c)) as [E3 | L3 | G3];
    try congruence; try lia; try apply IH.
Qed.

Lemma string_leb_ltb (a b : string) :
  String.leb a b = true -> a <> b -> String.ltb a b = true.
Proof.
  unfold String.leb, String.ltb. intros H Hne.
  destruct (String.compare a b) eqn:E; try congruence.
  apply String.compare_eq_iff in E. contradiction.
Qed.

Section GroupFacts.
Context {R : Type} (key : R -> option string).

Lemma notna_keys_In (k : string) (rs : list R) :
  In k (notna_keys key rs) <-> exists r, In r rs /\ key r = Some k.
Proof.
  unfold notna_keys. rewrite in_flat_map. split.
  - intros (r & Hr & H). exists r. split; [ exact Hr | ].
    destruct (key r); simpl in H; [ | contradiction ]. destruct H as [-> | []]. reflexivity.
  - intros (r & Hr & E). exists r. split; [ exact Hr | ]. rewrite E. now left.
Qed.

Lemma group_keys_perm (rs : list R) :
  Permutation (group_keys key rs) (unique String.eqb (notna_keys key rs)).
Proof. apply sort_le_perm. Qed.

Lemma group_keys_In (k : string) (rs : list R) :
  In k (group_keys key rs) <-> exists r, In r rs /\ key r = Some k.
Proof.
  transitivity (In k (unique String.eqb (notna_keys key rs))).
  - split; apply Permutation_in; [ | symmetry ]; apply group_keys_perm.
  - rewrite (unique_In _ String.eqb_eq). apply notna_keys_In.
Qed.

Lemma group_keys_ascending (rs : list R) :
  StronglySorted (fun a b => String.ltb a b = true) (group_keys key rs).
Proof.
  apply (StronglySorted_strict (fun a b => String.leb a b = true)).
  - apply string_leb_ltb.
  - apply (Permutation_NoDup (l := unique String.eqb (notna_keys key rs))).
    + symmetry. apply group_keys_perm.
    + apply unique_NoDup, String.eqb_eq.
  - apply sort_le_strongly_sorted.
    + apply String.leb_total.
    + intros a b c. apply string_leb_trans.
Qed.

(** The groups of distinct keys hold, together, the rows whose key is one
    of them. *)
Lemma filter_key_in_cons (k : string) (keys : list string) (rs : list R) :
  filter (fun r => match key r with
                   | Some k' => existsb (String.eqb k') (k :: keys)
                   | None => false
                   end) rs
  = filter (fun r => match key r with Some k' => String.eqb k k' | None => false end
                     || match key r with
                        | Some k' => existsb (String.eqb k') keys
                        | None => false
                        end) rs.
Proof.
  apply filter_ext. intro r. destruct (key r) as [k' | ]; [ | reflexivity ].
  simpl. now rewrite (String.eqb_sym k' k).
Qed.

Lemma group_disjoint (k : string) (keys : list string) (r : R) :
  ~ In k keys ->
  match key r with Some k' => String.eqb k k' | None => false end = true ->
  match key r with Some k' => existsb (String.eqb k') keys | None => false end = false.
Proof.
  intros Hnotin H. destruct (key r) as [k' | ]; [ | reflexivity ].
  apply String.eqb_eq in H. subst k'. now apply existsb_not_In.
Qed.

Lemma filter_key_in_unique (rs : list R) :
  filter (fun r => match key r with
                   | Some k' => existsb (String.eqb k') (unique String.eqb (notna_keys key rs))
                   | None => false
                   end) rs
  = filter (notna key) rs.
Proof.
  apply filter_ext_in. intros r Hr. unfold notna.
  destruct (key r) as [k | ] eqn:E; [ | reflexivity ].
  apply existsb_In, (unique_In _ String.eqb_eq), notna_keys_In. now exists r.
Qed.

End GroupFacts.

Lemma groupby_keys_membership {R} (key : R -> option string)
      (val : R -> option Q) (rs : list R) (k : string) :
  In k (map fst (groupby_sum key val rs)) <-> exists r, In r rs /\ key r = Some k.
Proof.
  assert (E : map fst (groupby_sum key val rs) = group_keys key rs).
  { unfold groupby_sum. rewrite map_map. simpl. apply map_id. }
  rewrite E. apply group_keys_In.
Qed.

(** X7: a group-by lists each non-null key of the table once, in ascending
    order of the keys; a null key makes no group. *)
Theorem groupby_keys_distinct_ascending {R} (key : R -> option string)
        (val : R -> option Q) (rs : list R) :
  StronglySorted (fun a b => String.ltb a b = true) (map fst (groupby_sum key val rs))
  /\ (forall k, In k (map fst (groupby_sum key val rs)) <->
                exists r, In r rs /\ key r = Some k)
  /\ List.length (groupby_sum key val rs) = List.length (unique String.eqb (notna_keys key rs)).
Proof.
  assert (E : map fst (groupby_sum key val rs) = group_keys key rs).
  { unfold groupby_sum. rewrite map_map. simpl. apply map_id. }
  split; [ rewrite E; apply group_keys_ascending | split ].
  - intro k. apply groupby_keys_membership.
  - rewrite <- (length_map fst), E. apply Permutation_length, group_keys_perm.
Qed.

(* ------------------------------------------------------------------ *)
(** ** Further properties: what the groups add up to *)

Lemma sum_cons_Some (q : Q) (l : list (option Q)) : sum (Some q :: l) = q + sum l.
Proof. reflexivity. Qed.

Lemma sum_perm (l l' : list (option Q)) : Permutation l l' -> sum l == sum l'.
Proof.
  induction 1 as [ | x l l' _ IH | x y l | l l' l'' _ IH1 _ IH2 ]; simpl.
  - reflexivity.
  - destruct x; [ now rewrite IH | exact IH ].
  - destruct x, y; try reflexivity. ring.
  - now rewrite IH1.
Qed.

Lemma sum_filter_disjoint {R} (val : R -> option Q) (p q : R -> bool) (l : list R) :
  (forall x, In x l -> p x = true -> q x = false) ->
  sum (map val (filter (fun x => p x || q x) l))
  == sum (map val (filter p l)) + sum (map val (filter q l)).
Proof.
  induction l as [ | x l IH]; intro H; simpl; [ ring | ].
  assert (IH' := IH (fun y Hy => H y (or_intror Hy))).
  destruct (p x) eqn:Ep; simpl.
  - rewrite (H x (or_introl eq_refl) Ep). destruct (val x); simpl; rewrite IH'; ring.
  - destruct (q x); simpl; [ destruct (val x); simpl | ]; rewrite IH'; ring.
Qed.

Section GroupTotals.
Context {R : Type} (key : R -> option string).

Lemma group_sums (val : R -> option Q) (keys : list string) (rs : list R) :
  NoDup keys ->
  sum (map (fun k => Some (sum (map val (group key k rs)))) keys)
  == sum (map val (filter (fun r => match key r with
                                    | Some k' => existsb (String.eqb k') keys
                                    | None => false
                                    end) rs)).
Proof.
  induction 1 as [ | k keys Hnotin Hnd IH].
  - simpl. induction rs as [ | r rs IHrs]; simpl; [ reflexivity | ].
    destruct (key r); exact IHrs.
  - cbn [map]. rewrite sum_cons_Some, IH, filter_key_in_cons.
    rewrite sum_filter_disjoint; [ reflexivity | ].
    intros r _. now apply group_disjoint.
Qed.

Lemma group_lengths (keys : list string) (rs : list R) :
  NoDup keys ->
  fold_right (fun k acc => (List.length (group key k rs) + acc)%nat) 0%nat keys
  = List.length (filter (fun r => match key r with
                                  | Some k' => existsb (String.eqb k') keys
                                  | None => false
                                  end) rs).
Proof.
  induction 1 as [ | k keys Hnotin Hnd IH].
  - simpl. induction rs as [ | r rs IHrs]; simpl; [ reflexivity | ].
    destruct (key r); exact IHrs.
  - cbn [fold_right]. rewrite IH, filter_key_in_cons.
    rewrite filter_length_disjoint; [ reflexivity | ].
    intros r _. now apply group_disjoint.
Qed.

Lemma notna_keys_filter (rs : list R) :
  notna_keys key (filter (notna key) rs) = notna_keys key rs.
Proof.
  induction rs as [ | r rs IH]; [ reflexivity | ].
  unfold notna in *. simpl. destruct (key r) eqn:E; simpl; [ rewrite E | ]; now rewrite IH.
Qed.

Lemma group_filter (k : string) (rs : list R) :
  group key k (filter (notna key) rs) = group key k rs.
Proof.
  unfold group. rewrite filter_filter. apply filter_ext. intro r.
  unfold notna. now destruct (key r).
Qed.

End GroupTotals.

(** X8: the sums of a group-by add up to the sum over the rows that have a
    key: no such row is counted twice or left out, and the rows with a null
    key are left out. *)
Theorem groupby_sum_conserves {R} (key : R -> option string) (val : R -> option Q)
        (rs : list R) :
  total (groupby_sum key val rs) == sum (map val (filter (notna key) rs)).
Proof.
  unfold total, groupby_sum. rewrite map_map. cbn [snd].
  rewrite (sum_perm _ (map (fun k => Some (sum (map val (group key k rs))))
                           (unique String.eqb (notna_keys key rs)))).
  - rewrite group_sums by apply unique_NoDup, String.eqb_eq.
    now rewrite filter_key_in_unique.
  - apply Permutation_map, group_keys_perm.
Qed.

Lemma total_bookings_perm (t t' : list (string * nat)) :
  Permutation t t' -> total_bookings t = total_bookings t'.
Proof.
  induction 1 as [ | x l l' _ IH | x y l | l l' l'' _ IH1 _ IH2 ]; simpl; lia.
Qed.

(** X9: [value_counts] lists each non-null value once with the number of
    rows that hold it, which is at least one, in descending order of that
    number; the numbers add up to the number of rows that hold a value. *)
Theorem value_counts_account (argsort : list Q -> list nat) {R}
        (key : R -> option string) (rs : list R) :
  argsort_spec argsort ->
  Permutation (value_counts argsort key rs) (counts key rs)
  /\ descending booking_count (value_counts argsort key rs)
  /\ NoDup (map fst (value_counts argsort key rs))
  /\ (forall k n, In (k, n) (value_counts argsort key rs) ->
                  n = List.length (group key k rs) /\ (1 <= n)%nat)
  /\ total_bookings (value_counts argsort key rs) = List.length (filter (notna key) rs).
Proof.
  intro Hspec. unfold value_counts.
  pose proof (sort_values_perm argsort booking_count Hspec (counts key rs)) as Hperm.
  split; [ exact Hperm | split; [ now apply sort_values_descending | split; [ | split ] ] ].
  - apply (Permutation_NoDup (l := map fst (counts key rs))).
    + symmetry. now apply Permutation_map.
    + unfold counts. rewrite map_map. simpl. rewrite map_id.
      apply unique_NoDup, String.eqb_eq.
  - intros k n Hin. apply (Permutation_in _ Hperm) in Hin.
    unfold counts in Hin. apply in_map_iff in Hin as (k' & E & Hk).
    injection E as -> <-. split; [ reflexivity | ].
    apply (unique_In _ String.eqb_eq), notna_keys_In in Hk as (r & Hr & E).
    assert (Hg : In r (group key k rs)).
    { unfold group. apply filter_In. split; [ exact Hr | ].
      rewrite E. apply String.eqb_refl. }
    destruct (group key k rs); [ contradiction | simpl; lia ].
  - rewrite (total_bookings_perm _ _ Hperm). unfold counts, total_bookings.
    rewrite <- filter_key_in_unique, <- group_lengths by apply unique_NoDup, String.eqb_eq.
    induction (unique String.eqb (notna_keys key rs)) as [ | k ks IH];
      simpl; [ reflexivity | now rewrite IH ].
Qed.

(** X10: the commission by flight type lists every type of the ticketed
    rows, none cut off, sorted descending by commission; dropping the rows
    without a type before the group-by changes nothing, as the group-by
    makes no group of them. *)
Theorem type_commission_all_types (argsort : list Q -> list nat) (ticketed : list row) :
  argsort_spec argsort ->
  Permutation (type_commission argsort ticketed) (groupby_sum Type_ Commission ticketed)
  /\ descending snd (type_commission argsort ticketed)
  /\ (forall k, In k (map fst (type_commission argsort ticketed)) <->
                exists r, In r ticketed /\ Type_ r = Some k).
Proof.
  intro Hspec. unfold type_commission.
  assert (E : groupby_sum Type_ Commission
                (filter (fun r => match Type_ r with Some _ => true | None => false end)
                        ticketed)
              = groupby_sum Type_ Commission ticketed).
  { change (fun r => match Type_ r with Some _ => true | None => false end)
      with (notna Type_).
    unfold groupby_sum, group_keys. rewrite notna_keys_filter.
    apply map_ext. intro k. now rewrite group_filter. }
  rewrite E.
  pose proof (sort_values_perm argsort snd Hspec (groupby_sum Type_ Commission ticketed))
    as Hperm.
  split; [ exact Hperm | split; [ now apply sort_values_descending | ] ].
  intro k.
  destruct (groupby_keys_membership Type_ Commission ticketed k) as [H1 H2].
  split.
  - intro H. apply H1. revert H. apply Permutation_in. now apply Permutation_map.
  - intro H. apply H2 in H. revert H. apply Permutation_in. symmetry.
    now apply Permutation_map.
Qed.

(* ------------------------------------------------------------------ *)
(** ** Further properties: maximum, mean and the histogram rows *)












(* ------------------------------------------------------------------ *)
(** ** Further properties: the run of the script *)



(** X15: when the file loads, the loader shows nothing and the script runs
    the dashboard on the loaded table; the loader's handler covers the load
    only, so an exception of the dashboard ends the script uncaught, as it
    does for every required column the table lacks. *)
Theorem loaded_table_runs_dashboard {P : Pandas} (argsort : list Q -> list nat)
        (read_excel : string -> outcome (frame Raw.row))
        (selected_years : list Z) (selected_months : list string)
        (df : frame Raw.row) :
  read_excel file_url = Returned df ->
  load_data read_excel file_url [] = ([], Returned (Some df))
  /\ app argsort read_excel selected_years selected_months []
     = dashboard argsort df selected_years selected_months []
  /\ forall c, In c required_columns -> ~ In c (columns df) ->
               exists log e,
                 app argsort read_excel selected_years selected_months []
                 = (log, Raised e).
Proof.
  intro H.
  assert (E : app argsort read_excel selected_years selected_months []
              = dashboard argsort df selected_years selected_months []).
  { unfold app. unfold bind at 1. now rewrite (load_data_success _ _ _ _ H). }
  split; [ now apply load_data_success | split; [ exact E | ] ].
  intros c Hc Hmiss. rewrite E.
  destruct (dashboard_aborts argsort df selected_years selected_months c Hc Hmiss)
    as (log & e & Hrun & _).
  now exists log, e.
Qed.



(* ------------------------------------------------------------------ *)
(** ** Further properties: the text of the metrics *)

Lemma group3_spec (n : nat) : forall l,
  (List.length l <= n)%nat ->
  forallb not_comma l = true ->
  filter not_comma (group3 l) = l
  /\ forall i, (i < List.length (group3 l))%nat ->
               (nth i (group3 l) "0"%char = ","%char <-> i mod 4 = 3)%nat.
Proof.
  induction n as [ | n IH]; intros l Hlen Hl.
  - destruct l; [ | simpl in Hlen; lia ]. split; [ reflexivity | simpl; lia ].
  - destruct l as [ | a [ | b [ | c [ | d rest]]]]; cbn [forallb] in Hl;
      repeat match type of Hl with
             | (_ && _) = true => let H := fresh "Hc" in apply andb_prop in Hl as [H Hl]
             end.
    + split; [ reflexivity | simpl; lia ].
    + split; [ simpl; now rewrite Hc | ].
      intros [ | i] Hi; [ | simpl in Hi; lia ]. simpl.
      split; [ intros ->; discriminate | discriminate ].
    + split; [ simpl; now rewrite Hc, Hc0 | ].
      intros [ | [ | i]] Hi; [ | | simpl in Hi; lia ]; simpl;
        (split; [ intros ->; discriminate | discriminate ]).
    + split; [ simpl; now rewrite Hc, Hc0, Hc1 | ].
      intros [ | [ | [ | i]]] Hi; [ | | | simpl in Hi; lia ]; simpl;
        (split; [ intros ->; discriminate | discriminate ]).
    + destruct (IH (d :: rest)) as [IH1 IH2].
      * simpl in *. lia.
      * cbn [forallb]. now rewrite Hc2, Hl.
      * change (group3 (a :: b :: c :: d :: rest))
          with (a :: b :: c :: ","%char :: group3 (d :: rest)).
        split.
        -- cbn [filter]. rewrite Hc, Hc0, Hc1. cbn [not_comma Ascii.eqb]. simpl negb.
           now rewrite IH1.
        -- intros [ | [ | [ | [ | i]]]] Hi; cbn [nth].
           ++ split; [ intros ->; discriminate | discriminate ].
           ++ split; [ intros ->; discriminate | discriminate ].
           ++ split; [ intros ->; discriminate | discriminate ].
           ++ split; reflexivity.
           ++ rewrite IH2 by (cbn [List.length] in Hi; lia).
              replace (S (S (S (S i)))) with (i + 1 * 4)%nat by lia.
              now rewrite Nat.Div0.mod_add.
Qed.

Lemma digits_no_comma (n : N) : forallb not_comma (digits n) = true.
Proof.
  unfold digits, NilZero.string_of_uint.
  assert (H : forall d, forallb not_comma
                          (list_ascii_of_string (NilEmpty.string_of_uint d)) = true).
  { induction d; simpl; try exact IHd; reflexivity. }
  destruct (N.to_uint n); try apply H. reflexivity.
Qed.

Lemma thousands_remove (ds : list ascii) :
  forallb not_comma ds = true -> filter not_comma (thousands ds) = ds.
Proof.
  intro H. unfold thousands. rewrite filter_rev.
  assert (Hrev : forallb not_comma (rev ds) = true).
  { rewrite forallb_forall in *. intros c Hc. apply H. now apply in_rev. }
  rewrite (proj1 (group3_spec (List.length (rev ds)) (rev ds) (le_n _) Hrev)).
  apply rev_involutive.
Qed.

Lemma str_int_digits (z : Z) :
  str_int z
  = string_of_list_ascii ((if (z <? 0)%Z then ["-"%char] else []) ++ digits (Z.abs_N z)).
Proof.
  unfold str_int, digits, Z.ltb.
  destruct z as [ | p | p];
    cbn [Z.compare Z.to_int Z.abs_N N.to_uint NilZero.string_of_int List.app
         string_of_list_ascii];
    now rewrite string_of_list_ascii_of_string.
Qed.

Lemma remove_commas_signed (sign : list ascii) (n : N) :
  forallb not_comma sign = true ->
  remove_commas (string_of_list_ascii (sign ++ thousands (digits n)))
  = string_of_list_ascii (sign ++ digits n).
Proof.
  intro Hs. unfold remove_commas.
  rewrite list_ascii_of_string_of_list_ascii.
  rewrite filter_app, thousands_remove by apply digits_no_comma.
  f_equal. f_equal. apply filter_all. intros c Hc.
  rewrite forallb_forall in Hs. now apply Hs.
Qed.

(** X16: the text of an integer metric is the decimal numeral of the value
    with commas added: without its commas it is [str] of the value, and
    counted from the right every fourth character of the grouped digits, and
    no other, is a comma. *)
Theorem integer_metric_text (z : Z) :
  remove_commas (metric_text (MInt z)) = str_int z
  /\ forall i, (i < List.length (thousands (digits (Z.abs_N z))))%nat ->
               (nth i (rev (thousands (digits (Z.abs_N z)))) "0"%char = ","%char
                <-> i mod 4 = 3)%nat.
Proof.
  split.
  - cbn [metric_text]. unfold format_comma.
    rewrite remove_commas_signed, str_int_digits; [ reflexivity | ].
    now destruct (z <? 0)%Z.
  - intros i Hi. unfold thousands in *. rewrite length_rev in Hi.
    rewrite rev_involutive.
    apply (group3_spec (List.length (rev (digits (Z.abs_N z))))); [ lia | | exact Hi ].
    pose proof (digits_no_comma (Z.abs_N z)) as H.
    rewrite forallb_forall in *. intros c Hc. apply H. now apply in_rev.
Qed.

Lemma round_half_even_near (q : Q) :
  inject_Z (round_half_even q) - (1 # 2) <= q
  /\ q <= inject_Z (round_half_even q) + (1 # 2).
Proof.
  unfold round_half_even.
  pose proof (Qfloor_le q) as H1. pose proof (Qlt_floor q) as H2.
  rewrite inject_Z_plus in H2. change (inject_Z 1) with 1 in H2.
  set (f := Qfloor q) in *.
  destruct (Qle_bool (q - inject_Z f) (1 # 2)) eqn:E1.
  - apply Qle_bool_iff in E1.
    destruct (Qle_bool (1 # 2) (q - inject_Z f)) eqn:E2.
    + apply Qle_bool_iff in E2. destruct (Z.even f).
      * lra.
      * rewrite inject_Z_plus. change (inject_Z 1) with 1. lra.
    + lra.
  - assert ((1 # 2) < q - inject_Z f).
    { apply Qnot_le_lt. intro K. apply Qle_bool_iff in K. congruence. }
    rewrite inject_Z_plus. change (inject_Z 1) with 1. lra.
Qed.

Lemma round_half_even_integer (z : Z) : round_half_even (inject_Z z) = z.
Proof.
  unfold round_half_even. rewrite Qfloor_Z.
  assert (E : inject_Z z - inject_Z z == 0) by ring.
  rewrite (Qleb_comp _ _ E _ _ (Qeq_refl _)), (Qleb_comp _ _ (Qeq_refl _) _ _ E).
  reflexivity.
Qed.

(** X17: the text of a float metric shows the value rounded to the nearest
    integer, at most one half away from it and exactly the value when it is
    an integer; for a value that is not negative the text without its
    commas is [str] of that integer, and an undefined value prints as
    [nan]. *)
Theorem float_metric_text (q : Q) :
  metric_text (MFloat None) = "nan"
  /\ inject_Z (round_half_even q) - (1 # 2) <= q
  /\ q <= inject_Z (round_half_even q) + (1 # 2)
  /\ (forall z, q == inject_Z z -> round_half_even q = z)
  /\ (0 <= q ->
      remove_commas (metric_text (MFloat (Some q))) = str_int (round_half_even q)).
Proof.
  split; [ reflexivity | ].
  destruct (round_half_even_near q) as [H1 H2].
  split; [ exact H1 | split; [ exact H2 | split ] ].
  - intros z E. rewrite <- (round_half_even_integer z).
    unfold round_half_even. rewrite (Qfloor_comp _ _ E).
    assert (E' : q - inject_Z (Qfloor (inject_Z z))
                 == inject_Z z - inject_Z (Qfloor (inject_Z z))) by now rewrite E.
    now rewrite (Qleb_comp _ _ E' _ _ (Qeq_refl _)), (Qleb_comp _ _ (Qeq_refl _) _ _ E').
  - intro Hq. cbn [metric_text format_comma_0f].
    rewrite (proj2 (Qle_bool_iff 0 q) Hq).
    rewrite remove_commas_signed by reflexivity.
    rewrite str_int_digits.
    replace (round_half_even q <? 0)%Z with false; [ reflexivity | ].
    symmetry. apply Z.ltb_ge.
    assert (K : inject_Z (-1) < inject_Z (round_half_even q)).
    { change (inject_Z (-1)) with (-1). lra. }
    rewrite <- Zlt_Qlt in K. lia.
Qed.

(* ------------------------------------------------------------------ *)
(** ** The further properties on the sample tables *)

(** X2 on the booking of March. *)
Lemma normalized_facets_of_date_witness :
  In Sample.normalized_C (rows (@normalize Sample.pandas Sample.table))
  /\ Year Sample.normalized_C = 2024%Z
  /\ Month Sample.normalized_C = 3%nat
  /\ Month_Name Sample.normalized_C = "March"
  /\ month_key (Month_Name Sample.normalized_C) = Some (Z.of_nat (Month Sample.normalized_C)).
Proof.
  assert (H : In Sample.normalized_C (rows (@normalize Sample.pandas Sample.table))).
  { right. right. left. reflexivity. }
  destruct (@normalized_facets_of_date Sample.pandas Sample.table Sample.normalized_C H)
    as (_ & _ & _ & _ & H5).
  split; [ exact H | ].
  split; [ reflexivity | split; [ reflexivity | split; [ reflexivity | exact H5 ] ] ].
Defined.

(** X9 on the payment methods of the sample table, with the stable sort. *)
Lemma value_counts_account_witness :
  argsort_spec Numpy.argsort_stable
  /\ value_counts Numpy.argsort_stable Payment_Method Sample.normalized
     = [("CBE", 2%nat); ("Telebirr", 1%nat)]
  /\ total_bookings (value_counts Numpy.argsort_stable Payment_Method Sample.normalized)
     = List.length (filter (notna Payment_Method) Sample.normalized).
Proof.
  destruct (value_counts_account Numpy.argsort_stable Payment_Method Sample.normalized
              argsort_stable_meets_spec) as (_ & _ & _ & _ & H).
  split; [ exact argsort_stable_meets_spec | split; [ | exact H ] ].
  vm_compute. reflexivity.
Defined.

(** X10 on the ticketed rows of the sample table, with the stable sort. *)
Lemma type_commission_all_types_witness :
  argsort_spec Numpy.argsort_stable
  /\ descending snd (type_commission Numpy.argsort_stable
                       (@ticketed_df Sample.pandas Sample.normalized))
  /\ map fst (type_commission Numpy.argsort_stable
                (@ticketed_df Sample.pandas Sample.normalized))
     = ["International"; "Domestic"].
Proof.
  destruct (type_commission_all_types Numpy.argsort_stable
              (@ticketed_df Sample.pandas Sample.normalized) argsort_stable_meets_spec)
    as (_ & H & _).
  split; [ exact argsort_stable_meets_spec | split; [ exact H | ] ].
  vm_compute. reflexivity.
Defined.



(** X15 on a loader that returns the sample table. *)
Lemma loaded_table_runs_dashboard_witness :
  Sample.reachable file_url = Returned Sample.table
  /\ @app Sample.pandas Numpy.argsort_quicksort Sample.reachable [] [] []
     = @dashboard Sample.pandas Numpy.argsort_quicksort Sample.table [] [] [].
Proof.
  split; [ reflexivity | ].
  apply (@loaded_table_runs_dashboard Sample.pandas Numpy.argsort_quicksort
           Sample.reachable [] [] Sample.table eq_refl).
Defined.

(** The texts of three metrics. *)
Example metric_texts :
  metric_text (MInt 1234567) = "1,234,567"
  /\ metric_text (MInt (-1234)) = "-1,234"
  /\ metric_text (MFloat (Some (2469 # 2))) = "1,234"
  /\ metric_text (MFloat (Some (2471 # 2))) = "1,236"
  /\ metric_text (MFloat (Some (-(2 # 5)))) = "-0".
Proof. repeat split; reflexivity. Qed.
